(** * Simulateur de sécurité réseau: the simulation engine of [src/App.tsx]

    A shallow embedding of the React component [App]: its state variables,
    the two effects (the metrics interval and the particle animator) and the
    event handlers that drive them, followed by the properties of the
    engine.

    Conventions of the embedding.
    - A JavaScript [number] is an exact rational ([Q]); the equalities on
      computed values are therefore [==] (Qeq).  Slider values, which the
      code obtains with [parseInt], are integers ([Z]) injected into [Q].
      The formulas are also given on binary64 floats ([Binary64]) and
      evaluated there on the inputs the specification names.
    - [Math.random()] and [Date.now()] are inputs: a handler that draws
      random numbers runs in the monad [Rnd] over a stream of draws, each of
      which lies in [0,1) for the events of a real run ([draws_ok]).
    - React's scheduling is explicit: an event handler updates the state and
      then re-runs the effects whose dependencies changed, cleanups first.
    - Drawing on the canvas changes no program variable and is left out; the
      scheduled [animate] callbacks and their particle arrays are kept. *)

From Stdlib Require Import String QArith Qminmax Lqa ZArith Lia Bool List.
From Stdlib Require Import PrimFloat.
From Stdlib Require Import Qround.
Import ListNotations.
Open Scope Q_scope.

(** ** Data model (the interfaces at the top of the file) *)

Record ServerConfig : Set := mkServerConfig {
  cpu : Z;
  ram : Z;
  bandwidth : Z;
  storage : Z
}.

Record SecurityMeasures : Set := mkSecurity {
  fail2ban : bool;
  pfsense : bool;
  cloudflare : bool;
  loadBalancer : bool;
  waf : bool
}.

Record MetricPoint : Set := mkMetricPoint {
  timestamp : Z;
  value : Q
}.

(** ** Library functions of the host language *)

Definition Math_max (a b : Q) : Q := Qmax a b.
Definition Math_min (a b : Q) : Q := Qmin a b.

(** [Object.values(security)]: the five flags in declaration order. *)
Definition Object_values (s : SecurityMeasures) : list bool :=
  [fail2ban s; pfsense s; cloudflare s; loadBalancer s; waf s].

(** [arr.slice(-n)]: the last [n] elements, the whole array when it is
    shorter. *)
Definition slice_last {A : Type} (n : nat) (l : list A) : list A :=
  skipn (length l - n) l.

(** [a > b] on numbers. *)
Definition Qgt_bool (a b : Q) : bool := negb (Qle_bool a b).

(** A [.length] used in arithmetic. *)
Definition of_nat (n : nat) : Q := inject_Z (Z.of_nat n).

(** *** Random draws *)

Definition Stream : Type := nat -> Q.

Definition Rnd (A : Type) : Type := Stream -> A * Stream.

Definition ret {A : Type} (a : A) : Rnd A := fun s => (a, s).

Definition bind {A B : Type} (m : Rnd A) (k : A -> Rnd B) : Rnd B :=
  fun s => let (a, s') := m s in k a s'.

Notation "x <- m ;; k" := (bind m (fun x => k))
  (at level 61, m at next level, right associativity).

(** [Math.random()]: the next draw of the stream. *)
Definition Math_random : Rnd Q :=
  fun s => (s O, fun n => s (S n)).

Definition run {A : Type} (m : Rnd A) (s : Stream) : A := fst (m s).

(** [arr.forEach(f)] for a callback that mutates its element in place. *)
Fixpoint forEach {A : Type} (f : A -> Rnd A) (l : list A) : Rnd (list A) :=
  match l with
  | [] => ret []
  | a :: l' => a' <- f a ;; l'' <- forEach f l' ;; ret (a' :: l'')
  end.

(** The draws a real run can see. *)
Definition draws_ok (s : Stream) : Prop := forall n, 0 <= s n /\ s n < 1.

(** ** Protection scorer *)

(** [Object.values(security).filter(Boolean).length] *)
Definition protectionLevel (security : SecurityMeasures) : nat :=
  length (filter (fun b : bool => b) (Object_values security)).

Definition getProtectionScore (security : SecurityMeasures) : Q :=
  let measures := protectionLevel security in
  (of_nat measures / 5) * 100.

(** ** The interval callback (one tick of the metrics engine) *)

(** What the callback closes over: the values of the render in which the
    effect ran. *)
Record Closure : Set := mkClosure {
  c_attackIntensity : Z;
  c_security : SecurityMeasures;
  c_serverConfig : ServerConfig
}.

Module Tick.

Definition baseLoad (attackIntensity : Z) (security : SecurityMeasures) : Q :=
  inject_Z attackIntensity * (1 - of_nat (protectionLevel security) * 0.15).

Definition randomVariation (r : Q) : Q := r * 20 - 10.

Definition value (attackIntensity : Z) (security : SecurityMeasures) (r : Q) : Q :=
  Math_max 0 (Math_min 100 (baseLoad attackIntensity security + randomVariation r)).

Definition serverCapacity (serverConfig : ServerConfig) : Q :=
  (inject_Z (cpu serverConfig) * 10 + inject_Z (ram serverConfig) * 2
   + inject_Z (bandwidth serverConfig) / 100) / 3.

Definition newServerLoad (serverConfig : ServerConfig) (value : Q) : Q :=
  Math_min 100 ((value / serverCapacity serverConfig) * 100).

Definition totalTraffic (attackIntensity : Z) : Q := inject_Z attackIntensity * 2.

Definition blockedTraffic (attackIntensity : Z) (security : SecurityMeasures) : Q :=
  totalTraffic attackIntensity * (of_nat (protectionLevel security) * 0.2).

End Tick.

(** The same formulas on IEEE 754 binary64 numbers, the [number] of the
    host language, to evaluate them on the inputs the specification
    names.  The constants 0.15 and 0.2 are rounded to binary64 as the
    source's literals are. *)
Module Binary64.
#[local] Open Scope float_scope.
#[local] Set Warnings "-inexact-float".

Definition baseLoad (attackIntensity protectionLevel : float) : float :=
  attackIntensity * (1 - protectionLevel * 0.15).

Definition serverCapacity (cpu ram bandwidth : float) : float :=
  (cpu * 10 + ram * 2 + bandwidth / 100) / 3.

Definition maliciousTraffic (attackIntensity protectionLevel : float) : float :=
  let totalTraffic := attackIntensity * 2 in
  let blockedTraffic := totalTraffic * (protectionLevel * 0.2) in
  totalTraffic - blockedTraffic.

Definition getProtectionScore (measures : float) : float :=
  (measures / 5) * 100.

End Binary64.

(** [prev => [...prev.slice(-30), { timestamp, value }]] *)
Definition pushMetric (prev : list MetricPoint) (p : MetricPoint) : list MetricPoint :=
  slice_last 30 prev ++ [p].

(** ** Particles of the traffic animation *)

Inductive ParticleType : Set := attack | legitimate.

Record Particle : Set := mkParticle {
  x : Q;
  y : Q;
  speed : Q;
  color : string;
  type : ParticleType
}.

(** The [<canvas width={400} height={300}>] element behind [canvasRef];
    [context2d] tells whether [getContext('2d')] returns a context. *)
Record Canvas : Set := mkCanvas {
  width : Z;
  height : Z;
  context2d : bool
}.

Definition particleCount : nat := 100.

Definition green : string := "#22c55e".
Definition red : string := "#ef4444".
Definition yellow : string := "#eab308".

(** [resetParticle(particle, forceType)], in the scope of the animator
    effect, which provides [canvas] and [security].  The assignments are
    those of the source, in order; [forceType || ...] draws the third
    random number only when no kind is forced. *)
Definition resetParticle (canvas : Canvas) (security : SecurityMeasures)
    (particle : Particle) (forceType : option ParticleType) : Rnd Particle :=
  let x1 := 0 in
  ry <- Math_random ;;
  let y1 := ry * inject_Z (height canvas) in
  rs <- Math_random ;;
  let speed1 := 2 + rs * 3 in
  type1 <- match forceType with
           | Some t => ret t
           | None => rt <- Math_random ;;
                     ret (if Qgt_bool rt 0.7 then legitimate else attack)
           end ;;
  let protectionLevel := protectionLevel security in
  match type1 with
  | legitimate => ret (mkParticle x1 y1 speed1 green type1)
  | attack =>
      if (4 <=? protectionLevel)%nat then
        ret (mkParticle x1 y1 (speed1 * 0.3) red type1)
      else if (2 <=? protectionLevel)%nat then
        ret (mkParticle x1 y1 (speed1 * 0.6) yellow type1)
      else
        ret (mkParticle x1 y1 speed1 red type1)
  end.

(** The initialisation loop of the animator effect. *)
Fixpoint initParticles (canvas : Canvas) (security : SecurityMeasures)
    (n : nat) : Rnd (list Particle) :=
  match n with
  | O => ret []
  | S n' =>
      let particle := mkParticle 0 0 0 red attack in
      p <- resetParticle canvas security particle None ;;
      ps <- initParticles canvas security n' ;;
      ret (p :: ps)
  end.

(** The body of the second [forEach] of [animate] without the drawing:
    [particle.x += particle.speed], then the reset past the right edge. *)
Definition advance (canvas : Canvas) (security : SecurityMeasures)
    (particle : Particle) : Rnd Particle :=
  let moved := mkParticle (x particle + speed particle) (y particle)
                 (speed particle) (color particle) (type particle) in
  if Qgt_bool (x moved) (inject_Z (width canvas))
  then resetParticle canvas security moved None
  else ret moved.

(** One [animate] callback handed to [requestAnimationFrame]: the variables
    of the effect run that created it.  [particles] is the [let] variable
    the effect's cleanup reassigns. *)
Record AnimLoop : Set := mkAnimLoop {
  loopCanvas : Canvas;
  loopSecurity : SecurityMeasures;
  particles : list Particle
}.

(** [animate()]: every particle advances; the callback ends by scheduling
    itself again, so the loop stays among the scheduled ones.  Its guard
    [if (!ctx || !canvas) return] never fires: both are constants of the
    effect run, which returned earlier had one of them been null. *)
Definition animate (l : AnimLoop) : Rnd AnimLoop :=
  ps <- forEach (advance (loopCanvas l) (loopSecurity l)) (particles l) ;;
  ret (mkAnimLoop (loopCanvas l) (loopSecurity l) ps).

(** ** The component state *)

Record App : Type := mkApp {
  (* useState *)
  serverConfig : ServerConfig;
  security : SecurityMeasures;
  isSimulating : bool;
  attackIntensity : Z;
  metrics : list MetricPoint;
  serverLoad : Q;
  legitimateTraffic : Q;
  maliciousTraffic : Q;
  (* useRef *)
  canvasRef : option Canvas;
  (* the timer of [setInterval], with the closure of its callback *)
  interval : option Closure;
  (* the [animate] callbacks pending in [requestAnimationFrame], in the
     order in which they were first scheduled *)
  frames : list AnimLoop;
  (* whether the last run of the animator effect returned its cleanup,
     which then belongs to the last loop *)
  animCleanup : bool
}.

(** The state after the first render and the first run of both effects:
    [isSimulating] is false, so the metrics effect only sets [metrics] to
    [[]] and the animator effect returns at its guard. *)
Definition init (canvasRef : option Canvas) : App :=
  mkApp (mkServerConfig 4 16 1000 500)
        (mkSecurity false false false false false)
        false 50 [] 0 0 0 canvasRef None [] false.

Definition theCanvas : Canvas := mkCanvas 400 300 true.

(** *** State setters *)

Definition set_serverConfig (v : ServerConfig) (s : App) : App :=
  mkApp v (security s) (isSimulating s) (attackIntensity s) (metrics s)
        (serverLoad s) (legitimateTraffic s) (maliciousTraffic s)
        (canvasRef s) (interval s) (frames s) (animCleanup s).

Definition set_security (v : SecurityMeasures) (s : App) : App :=
  mkApp (serverConfig s) v (isSimulating s) (attackIntensity s) (metrics s)
        (serverLoad s) (legitimateTraffic s) (maliciousTraffic s)
        (canvasRef s) (interval s) (frames s) (animCleanup s).

Definition set_isSimulating (v : bool) (s : App) : App :=
  mkApp (serverConfig s) (security s) v (attackIntensity s) (metrics s)
        (serverLoad s) (legitimateTraffic s) (maliciousTraffic s)
        (canvasRef s) (interval s) (frames s) (animCleanup s).

Definition set_attackIntensity (v : Z) (s : App) : App :=
  mkApp (serverConfig s) (security s) (isSimulating s) v (metrics s)
        (serverLoad s) (legitimateTraffic s) (maliciousTraffic s)
        (canvasRef s) (interval s) (frames s) (animCleanup s).

Definition set_metrics (v : list MetricPoint) (s : App) : App :=
  mkApp (serverConfig s) (security s) (isSimulating s) (attackIntensity s) v
        (serverLoad s) (legitimateTraffic s) (maliciousTraffic s)
        (canvasRef s) (interval s) (frames s) (animCleanup s).

Definition set_serverLoad (v : Q) (s : App) : App :=
  mkApp (serverConfig s) (security s) (isSimulating s) (attackIntensity s)
        (metrics s) v (legitimateTraffic s) (maliciousTraffic s)
        (canvasRef s) (interval s) (frames s) (animCleanup s).

Definition set_legitimateTraffic (v : Q) (s : App) : App :=
  mkApp (serverConfig s) (security s) (isSimulating s) (attackIntensity s)
        (metrics s) (serverLoad s) v (maliciousTraffic s)
        (canvasRef s) (interval s) (frames s) (animCleanup s).

Definition set_maliciousTraffic (v : Q) (s : App) : App :=
  mkApp (serverConfig s) (security s) (isSimulating s) (attackIntensity s)
        (metrics s) (serverLoad s) (legitimateTraffic s) v
        (canvasRef s) (interval s) (frames s) (animCleanup s).

Definition set_interval (v : option Closure) (s : App) : App :=
  mkApp (serverConfig s) (security s) (isSimulating s) (attackIntensity s)
        (metrics s) (serverLoad s) (legitimateTraffic s) (maliciousTraffic s)
        (canvasRef s) v (frames s) (animCleanup s).

Definition set_frames (v : list AnimLoop) (c : bool) (s : App) : App :=
  mkApp (serverConfig s) (security s) (isSimulating s) (attackIntensity s)
        (metrics s) (serverLoad s) (legitimateTraffic s) (maliciousTraffic s)
        (canvasRef s) (interval s) v c.

(** ** The metrics effect
    [useEffect(..., [isSimulating, attackIntensity, security, serverConfig])] *)

(** The callback of [setInterval], run with the closure of the timer. *)
Definition intervalCallback (c : Closure) (now : Z) (s : App) : Rnd App :=
  let timestamp := now in
  r1 <- Math_random ;;
  let value := Tick.value (c_attackIntensity c) (c_security c) r1 in
  let s := set_metrics (pushMetric (metrics s) (mkMetricPoint timestamp value)) s in
  let newServerLoad := Tick.newServerLoad (c_serverConfig c) value in
  let s := set_serverLoad newServerLoad s in
  let totalTraffic := Tick.totalTraffic (c_attackIntensity c) in
  let blockedTraffic := Tick.blockedTraffic (c_attackIntensity c) (c_security c) in
  let s := set_maliciousTraffic (totalTraffic - blockedTraffic) s in
  r2 <- Math_random ;;
  ret (set_legitimateTraffic (50 + r2 * 20) s).

(** The effect body: the early return when idle, [setInterval] otherwise. *)
Definition metricsEffect (s : App) : App :=
  if negb (isSimulating s) then set_metrics [] s
  else set_interval
         (Some (mkClosure (attackIntensity s) (security s) (serverConfig s))) s.

(** Its cleanup, [clearInterval(interval)]; the early return registers no
    cleanup, and then no timer is set either. *)
Definition metricsCleanup (s : App) : App := set_interval None s.

(** ** The animator effect  [useEffect(..., [isSimulating, security])] *)

Fixpoint update_last {A : Type} (f : A -> A) (l : list A) : list A :=
  match l with
  | [] => []
  | [a] => [f a]
  | a :: l' => a :: update_last f l'
  end.

Definition animatorEffect (s : App) : Rnd App :=
  if negb (isSimulating s) then ret (set_frames (frames s) false s) else
  match canvasRef s with
  | None => ret (set_frames (frames s) false s)
  | Some canvas =>
      if negb (context2d canvas) then ret (set_frames (frames s) false s) else
      ps <- initParticles canvas (security s) particleCount ;;
      l <- animate (mkAnimLoop canvas (security s) ps) ;;
      ret (set_frames (frames s ++ [l]) true s)
  end.

(** [particles = []] in the scope of one loop. *)
Definition emptied (l : AnimLoop) : AnimLoop :=
  mkAnimLoop (loopCanvas l) (loopSecurity l) [].

(** Its cleanup, [particles = []], on the loop of the run that returned
    it.  The pending [requestAnimationFrame] is not cancelled: the loop
    stays scheduled. *)
Definition animatorCleanup (s : App) : App :=
  if animCleanup s then set_frames (update_last emptied (frames s)) false s
  else s.

(** After a render, React runs the cleanups of the effects whose
    dependencies changed, then those effects, in the order of the source. *)
Definition runEffects (metricsDeps animatorDeps : bool) (s : App) : Rnd App :=
  let s := if metricsDeps then metricsCleanup s else s in
  let s := if animatorDeps then animatorCleanup s else s in
  let s := if metricsDeps then metricsEffect s else s in
  if animatorDeps then animatorEffect s else ret s.

(** ** Event handlers *)

(** [setIsSimulating(v)]: React skips the render when the value is the
    one already held; otherwise both effects depend on it. *)
Definition setIsSimulating (v : bool) (s : App) : Rnd App :=
  if Bool.eqb v (isSimulating s) then ret s
  else runEffects true true (set_isSimulating v s).

(** The button: [onClick={() => setIsSimulating(!isSimulating)}]. *)
Definition onClick (s : App) : Rnd App :=
  setIsSimulating (negb (isSimulating s)) s.

(** The two commands behind the button: it starts an idle simulation and
    stops a running one. *)
Definition start (s : App) : Rnd App := setIsSimulating true s.
Definition stop (s : App) : Rnd App := setIsSimulating false s.

Inductive ConfigKey : Set := Kcpu | Kram | Kbandwidth | Kstorage.

(** [min={key === 'cpu' ? 1 : 1}] and the [max] of each slider. *)
Definition sliderMin (key : ConfigKey) : Z :=
  match key with Kcpu => 1 | _ => 1 end.

Definition sliderMax (key : ConfigKey) : Z :=
  match key with
  | Kcpu => 32
  | Kram => 128
  | Kbandwidth => 10000
  | Kstorage => 2000
  end.

(** [prev => ({ ...prev, [key]: parseInt(e.target.value) })]: a new object,
    so the metrics effect runs again. *)
Definition onChangeServerConfig (key : ConfigKey) (v : Z) (s : App) : Rnd App :=
  let prev := serverConfig s in
  let next :=
    match key with
    | Kcpu => mkServerConfig v (ram prev) (bandwidth prev) (storage prev)
    | Kram => mkServerConfig (cpu prev) v (bandwidth prev) (storage prev)
    | Kbandwidth => mkServerConfig (cpu prev) (ram prev) v (storage prev)
    | Kstorage => mkServerConfig (cpu prev) (ram prev) (bandwidth prev) v
    end in
  runEffects true false (set_serverConfig next s).

Inductive SecurityKey : Set :=
  Kfail2ban | Kpfsense | Kcloudflare | KloadBalancer | Kwaf.

(** [prev => ({ ...prev, [key]: !prev[key] })]: both effects depend on
    [security]. *)
Definition onChangeSecurity (key : SecurityKey) (s : App) : Rnd App :=
  let prev := security s in
  let next :=
    match key with
    | Kfail2ban =>
        mkSecurity (negb (fail2ban prev)) (pfsense prev) (cloudflare prev)
                   (loadBalancer prev) (waf prev)
    | Kpfsense =>
        mkSecurity (fail2ban prev) (negb (pfsense prev)) (cloudflare prev)
                   (loadBalancer prev) (waf prev)
    | Kcloudflare =>
        mkSecurity (fail2ban prev) (pfsense prev) (negb (cloudflare prev))
                   (loadBalancer prev) (waf prev)
    | KloadBalancer =>
        mkSecurity (fail2ban prev) (pfsense prev) (cloudflare prev)
                   (negb (loadBalancer prev)) (waf prev)
    | Kwaf =>
        mkSecurity (fail2ban prev) (pfsense prev) (cloudflare prev)
                   (loadBalancer prev) (negb (waf prev))
    end in
  runEffects true true (set_security next s).

(** [setAttackIntensity(parseInt(e.target.value))] *)
Definition onChangeAttackIntensity (v : Z) (s : App) : Rnd App :=
  if (v =? attackIntensity s)%Z then ret s
  else runEffects true false (set_attackIntensity v s).

(** The timer fires: the callback of the interval in place runs.  Its
    setters touch no dependency of an effect. *)
Definition onInterval (now : Z) (s : App) : Rnd App :=
  match interval s with
  | Some c => intervalCallback c now s
  | None => ret s
  end.

(** A display refresh: every pending [animate] callback runs once. *)
Definition onAnimationFrame (s : App) : Rnd App :=
  fs <- forEach animate (frames s) ;;
  ret (set_frames fs (animCleanup s) s).

(** ** The component as a transition system *)

Inductive Event : Set :=
| Click
| ServerSlider (key : ConfigKey) (v : Z)
| SecurityCheckbox (key : SecurityKey)
| AttackSlider (v : Z)
| TimerFires (now : Z)
| FrameFires.

Definition handle (e : Event) (s : App) : Rnd App :=
  match e with
  | Click => onClick s
  | ServerSlider key v => onChangeServerConfig key v s
  | SecurityCheckbox key => onChangeSecurity key s
  | AttackSlider v => onChangeAttackIntensity v s
  | TimerFires now => onInterval now s
  | FrameFires => onAnimationFrame s
  end.

Definition step (e : Event) (rnd : Stream) (s : App) : App :=
  run (handle e s) rnd.

(** The values a range input can deliver. *)
Definition event_ok (e : Event) : Prop :=
  match e with
  | ServerSlider key v => (sliderMin key <= v <= sliderMax key)%Z
  | AttackSlider v => (0 <= v <= 100)%Z
  | _ => True
  end.

Inductive reachable : App -> Prop :=
| reach_init : forall canvasRef, reachable (init canvasRef)
| reach_step : forall s e rnd,
    reachable s -> event_ok e -> draws_ok rnd -> reachable (step e rnd s).

(** The two states of the engine. *)
Definition Running (s : App) : Prop := isSimulating s = true.
Definition Idle (s : App) : Prop := isSimulating s = false.

(** A run from the first render, for concrete checks. *)
Fixpoint runEvents (es : list Event) (rnd : Stream) (s : App) : App :=
  match es with
  | [] => s
  | e :: es' => runEvents es' rnd (step e rnd s)
  end.

Definition half : Stream := fun _ => 0.5.

(** ** Declared ranges of the data model *)

Definition config_ok (c : ServerConfig) : Prop :=
  (1 <= cpu c <= 32 /\ 1 <= ram c <= 128 /\ 1 <= bandwidth c <= 10000
   /\ 1 <= storage c <= 2000)%Z.

Definition intensity_ok (a : Z) : Prop := (0 <= a <= 100)%Z.

Definition in_percent (q : Q) : Prop := 0 <= q /\ q <= 100.

Definition clamp (q lo hi : Q) : Q := Qmax lo (Qmin hi q).

(** The state without the animator's bookkeeping; the metrics engine never
    reads it. *)
Definition forget (s : App) : App := set_frames [] false s.

(** The count of enabled measures, flag by flag. *)
Definition countTrue (s : SecurityMeasures) : nat :=
  (Nat.b2n (fail2ban s) + Nat.b2n (pfsense s) + Nat.b2n (cloudflare s)
   + Nat.b2n (loadBalancer s) + Nat.b2n (waf s))%nat.

Definition allMeasures : SecurityMeasures := mkSecurity true true true true true.
Definition noMeasures : SecurityMeasures := mkSecurity false false false false false.

(** What holds of the metrics engine in every state the component can
    reach. *)
Record Inv (s : App) : Prop := mkInv {
  inv_config : config_ok (serverConfig s);
  inv_intensity : intensity_ok (attackIntensity s);
  inv_interval :
    interval s =
    if isSimulating s
    then Some (mkClosure (attackIntensity s) (security s) (serverConfig s))
    else None;
  inv_idle : isSimulating s = false -> metrics s = [];
  inv_length : (length (metrics s) <= 31)%nat;
  inv_values : Forall (fun p => in_percent (value p)) (metrics s);
  inv_load : in_percent (serverLoad s);
  inv_legitimate : in_percent (legitimateTraffic s);
  inv_malicious : 0 <= maliciousTraffic s /\ maliciousTraffic s <= 200
}.

(** Two runs from the first render: the button pressed once, and the
    attack slider pushed to its maximum before that. *)
Definition started : App := runEvents [Click] half (init (Some theCanvas)).

Definition attacked : App :=
  runEvents [AttackSlider 100; Click] half (init (Some theCanvas)).

(** What holds of the scheduled loops in every reachable state: all but
    the last have lost their particles, and the last one, when its cleanup
    is pending, was created under the current measures. *)
Definition FramesInv (s : App) : Prop :=
  exists olds,
    Forall (fun l => particles l = []) olds
    /\ if animCleanup s
       then exists l, frames s = olds ++ [l] /\ loopSecurity l = security s
       else frames s = olds.

(** Whether the animator effect gets past its guards on the canvas. *)
Definition usable (s : App) : bool :=
  match canvasRef s with
  | Some canvas => context2d canvas
  | None => false
  end.

(** The cleanup of the animator effect is pending exactly while the
    simulation runs on a usable canvas. *)
Definition CleanupInv (s : App) : Prop :=
  animCleanup s = isSimulating s && usable s.

(** The state between the cleanup and the body of the animator effect. *)
Definition AllDiscarded (s : App) : Prop :=
  animCleanup s = false /\ Forall (fun l => particles l = []) (frames s).

(** A computation that hands on a stream of proper draws. *)
Definition preserves {A : Type} (m : Rnd A) : Prop :=
  forall r, draws_ok r -> draws_ok (snd (m r)).

(** The reset rule, as a relation between the protection level, the two
    draws behind [y] and the base speed, and the particle that results. *)
Definition reset_rule (canvas : Canvas) (level : nat) (ry rs : Q)
    (p : Particle) : Prop :=
  let base := 2 + rs * 3 in
  x p = 0
  /\ y p = ry * inject_Z (height canvas)
  /\ ((0 <= height canvas)%Z ->
      0 <= y p /\ y p <= inject_Z (height canvas))
  /\ (2 <= base /\ base <= 5)
  /\ (type p = legitimate -> color p = green /\ speed p = base)
  /\ (type p = attack -> (4 <= level)%nat ->
      color p = red /\ speed p = base * 0.3)
  /\ (type p = attack -> (2 <= level < 4)%nat ->
      color p = yellow /\ speed p = base * 0.6)
  /\ (type p = attack -> (level < 2)%nat ->
      color p = red /\ speed p = base).

(** Start, then stop, then stop again. *)
Definition stoppedOnce : App := run (stop started) half.
Definition stoppedTwice : App := run (stop stoppedOnce) half.

(** A run in which every draw is 0: all particles are attacks of speed 2,
    red under no measure.  After the start and 199 frames they sit at
    x = 400, one step before the right edge of the canvas. *)
Definition zeros : Stream := fun _ => 0.

Definition flying : App :=
  runEvents (Click :: repeat FrameFires 199) zeros (init (Some theCanvas)).

Definition flyingParticle : Particle := mkParticle 400 0 2 red attack.

Definition flyingLoop : AnimLoop :=
  mkAnimLoop theCanvas noMeasures (repeat flyingParticle particleCount).

(** A running simulation after its first tick. *)
Definition ticked : App :=
  runEvents [Click; TimerFires 0] half (init (Some theCanvas)).

Definition minimalConfig : ServerConfig := mkServerConfig 1 1 1 1.

(** ** What the component renders

    The parts of the returned JSX that compute something from the state:
    the chart's data, and the live-analysis panel. *)

(** [chartData]: one empty label and one value per point of the history. *)
Record ChartData : Set := mkChartData {
  labels : list string;
  data : list Q
}.

Definition chartData (s : App) : ChartData :=
  mkChartData (map (fun _ => EmptyString) (metrics s))
              (map (fun m => value m) (metrics s)).

(** [chartOptions.scales.y]: [beginAtZero: true] and [max: 100]. *)
Definition chartMin : Q := 0.
Definition chartMax : Q := 100.

(** [x.toFixed(0)] as the integer it prints: the nearest integer, the
    larger one at a tie, on the absolute value; the sign is put back. *)
Definition toFixed0 (q : Q) : Z :=
  if Qle_bool 0 q then Qfloor (q + 0.5)
  else (- Qfloor (- q + 0.5))%Z.

(** The bullet lines of the panel, each behind [security.<flag> && ...]. *)
Definition analysisLines (security : SecurityMeasures) : list string :=
  (if fail2ban security
   then ["• Fail2ban: Blocage des tentatives d'accès malveillantes"%string]
   else [])
  ++ (if pfsense security
      then ["• pfSense: Filtrage du trafic et détection d'intrusion"%string]
      else [])
  ++ (if cloudflare security
      then ["• Cloudflare: Protection DDoS et CDN"%string]
      else [])
  ++ (if loadBalancer security
      then ["• Load Balancer: Distribution de charge et haute disponibilité"%string]
      else [])
  ++ (if waf security
      then ["• WAF: Protection contre les attaques web"%string]
      else []).

(** The status line: the colour class interpolated into its [className]
    and its text, two conditional expressions on [serverLoad]. *)
Definition statusClass (serverLoad : Q) : string :=
  if Qgt_bool serverLoad 90 then "text-red-500"
  else if Qgt_bool serverLoad 70 then "text-yellow-500"
  else "text-green-500".

Definition statusText (serverLoad : Q) : string :=
  if Qgt_bool serverLoad 90 then "⚠️ Système saturé"
  else if Qgt_bool serverLoad 70 then "⚠️ Charge élevée"
  else "✅ Système stable".

(** [Math.min(100, (cpu * 10 + ram * 2 + bandwidth / 100) / 3).toFixed(0)] *)
Definition capacityPercent (serverConfig : ServerConfig) : Z :=
  toFixed0 (Math_min 100 (Tick.serverCapacity serverConfig)).

(** [getProtectionScore().toFixed(0)] *)
Definition protectionPercent (security : SecurityMeasures) : Z :=
  toFixed0 (getProtectionScore security).

(** The panel [{isSimulating && (...)}]: absent while idle. *)
Record Analysis : Set := mkAnalysis {
  a_lines : list string;
  a_capacity : Z;
  a_protection : Z;
  a_statusClass : string;
  a_statusText : string
}.

Definition liveAnalysis (s : App) : option Analysis :=
  if isSimulating s then
    Some (mkAnalysis (analysisLines (security s))
                     (capacityPercent (serverConfig s))
                     (protectionPercent (security s))
                     (statusClass (serverLoad s))
                     (statusText (serverLoad s)))
  else None.

(** ** What [animate] draws

    The calls on the 2D context, in order, with the style in force. *)
Inductive DrawCmd : Set :=
| FillRect (fillStyle : string) (x0 y0 w h : Q)
| Line (strokeStyle : string) (lineWidth : Q) (x0 y0 x1 y1 : Q)
| Disc (fillStyle : string) (x0 y0 radius : Q).

Definition fade (canvas : Canvas) : DrawCmd :=
  FillRect "rgba(17, 24, 39, 0.2)" 0 0
    (inject_Z (width canvas)) (inject_Z (height canvas)).

(** The first [forEach]: a line from a legitimate particle in the last
    fifth of the canvas to the middle of its right edge. *)
Definition drawLines (canvas : Canvas) (ps : list Particle) : list DrawCmd :=
  flat_map
    (fun particle =>
       match type particle with
       | legitimate =>
           if Qgt_bool (x particle) (inject_Z (width canvas) * 0.8)
           then [Line "rgba(59, 130, 246, 0.2)" 1 (x particle) (y particle)
                      (inject_Z (width canvas)) (inject_Z (height canvas) / 2)]
           else []
       | attack => []
       end) ps.

(** The drawing half of the second [forEach]: each particle is drawn where
    it is before it moves. *)
Definition drawDiscs (ps : list Particle) : list DrawCmd :=
  map (fun particle =>
         Disc (color particle) (x particle) (y particle)
              (match type particle with legitimate => 3 | attack => 2 end))
      ps.

Definition drawLoop (l : AnimLoop) : list DrawCmd :=
  fade (loopCanvas l)
  :: drawLines (loopCanvas l) (particles l) ++ drawDiscs (particles l).

(** What one display refresh draws: every scheduled callback in turn. *)
Definition drawFrame (s : App) : list DrawCmd :=
  flat_map drawLoop (frames s).

(** ** Predicates of the further properties *)

(** A particle as [resetParticle] and [advance] leave it on its canvas. *)
Definition particle_ok (canvas : Canvas) (p : Particle) : Prop :=
  (0 <= x p /\ x p <= inject_Z (width canvas))
  /\ (0 <= y p /\ y p <= inject_Z (height canvas))
  /\ match type p with
     | legitimate => color p = green /\ 2 <= speed p /\ speed p <= 5
     | attack =>
         (color p = red /\ 0.5 <= speed p /\ speed p <= 5)
         \/ (color p = yellow /\ 1 <= speed p /\ speed p <= 3)
     end.

(** The loop the animator effect creates: the pool of the initialisation
    loop after the first, synchronous call of [animate]. *)
Definition fresh_loop (l : AnimLoop) : Prop :=
  exists canvas security r,
    draws_ok r /\ context2d canvas = true
    /\ l = fst (animate
                  (mkAnimLoop canvas security
                     (fst (initParticles canvas security particleCount r)))
                  (snd (initParticles canvas security particleCount r))).

(** A running simulation whose sliders and checkboxes were used since the
    start. *)
Definition reconfigured : App :=
  runEvents [Click; AttackSlider 80; SecurityCheckbox Kwaf;
             ServerSlider Kcpu 8; TimerFires 7]
            half (init (Some theCanvas)).

(** The same run, stopped. *)
Definition halted : App := step Click half reconfigured.

(** [security[key]] *)
Definition flag (key : SecurityKey) (security : SecurityMeasures) : bool :=
  match key with
  | Kfail2ban => fail2ban security
  | Kpfsense => pfsense security
  | Kcloudflare => cloudflare security
  | KloadBalancer => loadBalancer security
  | Kwaf => waf security
  end.

(** [totalTraffic - blockedTraffic], the argument of
    [setMaliciousTraffic]. *)
Definition unblockedTraffic (attackIntensity : Z) (security : SecurityMeasures) : Q :=
  Tick.totalTraffic attackIntensity - Tick.blockedTraffic attackIntensity security.

Definition largeConfig : ServerConfig := mkServerConfig 32 128 10000 2000.
Definition defaultConfig : ServerConfig := mkServerConfig 4 16 1000 500.

(** While the cleanup of the animator effect is pending, the last loop
    holds the full pool. *)
Definition PoolInv (s : App) : Prop :=
  animCleanup s = true ->
  exists olds l,
    frames s = olds ++ [l] /\ length (particles l) = particleCount.

(** A run on a page whose canvas is missing. *)
Definition blind : App := runEvents [Click; FrameFires] half (init None).

(** What is in place for each drawing command of [animate] on a canvas. *)
Definition cmd_on_canvas (canvas : Canvas) (cmd : DrawCmd) : Prop :=
  let w := inject_Z (width canvas) in
  let h := inject_Z (height canvas) in
  match cmd with
  | FillRect _ x0 y0 w0 h0 => x0 = 0 /\ y0 = 0 /\ w0 = w /\ h0 = h
  | Line _ _ x0 y0 x1 y1 =>
      (w * 0.8 < x0 /\ x0 <= w) /\ (0 <= y0 /\ y0 <= h)
      /\ x1 = w /\ y1 = h / 2
  | Disc style x0 y0 radius =>
      (0 <= x0 /\ x0 <= w) /\ (0 <= y0 /\ y0 <= h)
      /\ ((style = green /\ radius = 3)
          \/ ((style = red \/ style = yellow) /\ radius = 2))
  end.

(** The button pressed twice, [n] times over. *)
Definition cycles (n : nat) : list Event :=
  flat_map (fun _ => [Click; Click]) (seq 0 n).

(** The colour and the speed [resetParticle] assigns, as a relation
    between the protection level, the draw behind the base speed and the
    particle; [advance] keeps it while the particle is not reset. *)
Definition kind_rule (level : nat) (rs : Q) (p : Particle) : Prop :=
  let base := 2 + rs * 3 in
  (2 <= base /\ base <= 5)
  /\ (type p = legitimate -> color p = green /\ speed p = base)
  /\ (type p = attack -> (4 <= level)%nat ->
      color p = red /\ speed p = base * 0.3)
  /\ (type p = attack -> (2 <= level < 4)%nat ->
      color p = yellow /\ speed p = base * 0.6)
  /\ (type p = attack -> (level < 2)%nat ->
      color p = red /\ speed p = base).

(** The particles on display: the array of the loop scheduled last. *)
Definition pool (s : App) : list Particle :=
  particles (last (frames s) (mkAnimLoop theCanvas noMeasures [])).

(** A simulation started with every draw 0, one measure enabled, ten
    frames on: its particles are red attacks of speed 2 at x = 22. *)
Definition midflight : App :=
  runEvents ([Click; SecurityCheckbox Kfail2ban] ++ repeat FrameFires 10)
            zeros (init (Some theCanvas)).

Definition midflightParticle : Particle := mkParticle 22 0 2 red attack.

Definition midflightLoop : AnimLoop :=
  mkAnimLoop theCanvas (mkSecurity true false false false false)
             (repeat midflightParticle particleCount).

(** * Properties *)

(** ** Arithmetic helpers *)

Lemma inject_Z_range (a lo hi : Z) :
  (lo <= a <= hi)%Z -> inject_Z lo <= inject_Z a /\ inject_Z a <= inject_Z hi.
Proof.
  intros [H1 H2]. split; rewrite <- Zle_Qle; assumption.
Qed.

Lemma clamp_bounds (q : Q) : in_percent (clamp q 0 100).
Proof.
  unfold in_percent, clamp. split.
  - apply Q.le_max_l.
  - apply Q.max_lub; [lra | apply Q.le_min_l].
Qed.

Lemma clamp_of_nonneg (q : Q) : 0 <= q -> clamp q 0 100 == Qmin 100 q.
Proof.
  intros H. unfold clamp. apply Q.max_r.
  apply Q.min_glb; [lra | exact H].
Qed.

Lemma protectionLevel_count (s : SecurityMeasures) :
  protectionLevel s = countTrue s.
Proof.
  destruct s as [[] [] [] [] []]; reflexivity.
Qed.

Lemma protectionLevel_le_5 (s : SecurityMeasures) : (protectionLevel s <= 5)%nat.
Proof.
  destruct s as [[] [] [] [] []]; cbv; lia.
Qed.

Lemma of_nat_level_range (s : SecurityMeasures) :
  0 <= of_nat (protectionLevel s) /\ of_nat (protectionLevel s) <= 5.
Proof.
  destruct s as [[] [] [] [] []]; cbv; split; discriminate.
Qed.

Lemma serverCapacity_pos (c : ServerConfig) :
  (1 <= cpu c)%Z -> (1 <= ram c)%Z -> (1 <= bandwidth c)%Z ->
  0 < Tick.serverCapacity c.
Proof.
  intros Hc Hr Hb. unfold Tick.serverCapacity.
  rewrite Zle_Qle in Hc, Hr, Hb.
  change (inject_Z 1) with 1 in Hc, Hr, Hb.
  apply Qlt_shift_div_l; [lra | ].
  assert (0 <= inject_Z (bandwidth c) / 100)
    by (apply Qle_shift_div_l; lra).
  lra.
Qed.

Lemma value_bounds (a : Z) (s : SecurityMeasures) (r : Q) :
  in_percent (Tick.value a s r).
Proof.
  apply clamp_bounds.
Qed.

Lemma newServerLoad_bounds (c : ServerConfig) (v : Q) :
  0 < Tick.serverCapacity c -> 0 <= v -> in_percent (Tick.newServerLoad c v).
Proof.
  intros Hc Hv. unfold Tick.newServerLoad, Math_min, in_percent.
  assert (H : 0 <= v / Tick.serverCapacity c)
    by (apply Qle_shift_div_l; [exact Hc | lra]).
  split.
  - apply Q.min_glb; lra.
  - apply Q.le_min_l.
Qed.

Lemma malicious_bounds (a : Z) (s : SecurityMeasures) :
  intensity_ok a ->
  0 <= Tick.totalTraffic a - Tick.blockedTraffic a s
  /\ Tick.totalTraffic a - Tick.blockedTraffic a s <= 200.
Proof.
  intros Ha. apply inject_Z_range in Ha. destruct Ha as [H0 H100].
  unfold Tick.blockedTraffic, Tick.totalTraffic.
  change (inject_Z 0) with 0 in H0. change (inject_Z 100) with 100 in H100.
  generalize dependent (inject_Z a). intros q H0 H100.
  destruct s as [[] [] [] [] []];
    cbv [of_nat protectionLevel Object_values filter length
         fail2ban pfsense cloudflare loadBalancer waf Z.of_nat
         Pos.of_succ_nat Pos.succ inject_Z];
    split; lra.
Qed.

(** ** The sliding window *)

Lemma slice_last_length {A : Type} (n : nat) (l : list A) :
  length (slice_last n l) = Nat.min n (length l).
Proof.
  unfold slice_last. rewrite length_skipn. lia.
Qed.

Lemma slice_last_suffix {A : Type} (n : nat) (l : list A) :
  l = firstn (length l - n) l ++ slice_last n l.
Proof.
  unfold slice_last. symmetry. apply firstn_skipn.
Qed.

Lemma slice_last_short {A : Type} (n : nat) (l : list A) :
  (length l <= n)%nat -> slice_last n l = l.
Proof.
  intros H. unfold slice_last.
  replace (length l - n)%nat with O by lia. reflexivity.
Qed.

Lemma slice_last_Forall {A : Type} (P : A -> Prop) (n : nat) (l : list A) :
  Forall P l -> Forall P (slice_last n l).
Proof.
  intros H. rewrite (slice_last_suffix n l) in H.
  apply Forall_app in H. tauto.
Qed.

Lemma pushMetric_length (prev : list MetricPoint) (p : MetricPoint) :
  (length (pushMetric prev p) <= 31)%nat.
Proof.
  unfold pushMetric. rewrite length_app, slice_last_length.
  change (length [p]) with 1%nat. lia.
Qed.

(** ** The effects leave the engine's variables to their setters *)

Lemma forget_set_frames (f : list AnimLoop) (c : bool) (s : App) :
  forget (set_frames f c s) = forget s.
Proof. reflexivity. Qed.

Lemma animatorCleanup_frames (s : App) :
  exists f c, animatorCleanup s = set_frames f c s.
Proof.
  unfold animatorCleanup. destruct (animCleanup s) eqn:E.
  - eauto.
  - exists (frames s), false. destruct s; simpl in *. subst. reflexivity.
Qed.

Lemma animatorEffect_frames (s : App) (rnd : Stream) :
  exists f c, run (animatorEffect s) rnd = set_frames f c s.
Proof.
  unfold animatorEffect, run, bind, ret.
  destruct (isSimulating s); cbn [negb fst]; [ | eauto].
  destruct (canvasRef s) as [canvas | ]; [ | cbn [fst]; eauto].
  destruct (context2d canvas); cbn [negb fst]; [ | eauto].
  destruct (initParticles canvas (security s) particleCount rnd) as [ps r1].
  destruct (animate (mkAnimLoop canvas (security s) ps) r1) as [l r2].
  cbn [fst]. eauto.
Qed.

Lemma metricsEffect_set_frames (f : list AnimLoop) (c : bool) (s : App) :
  metricsEffect (set_frames f c s) = set_frames f c (metricsEffect s).
Proof.
  unfold metricsEffect. simpl. destruct (isSimulating s); reflexivity.
Qed.

Lemma forget_runEffects (m a : bool) (s : App) (rnd : Stream) :
  forget (run (runEffects m a s) rnd)
  = forget (if m then metricsEffect (metricsCleanup s) else s).
Proof.
  unfold runEffects.
  set (s1 := if m then metricsCleanup s else s).
  assert (H2 : exists f c,
             (if a then animatorCleanup s1 else s1) = set_frames f c s1).
  { destruct a.
    - apply animatorCleanup_frames.
    - exists (frames s1), (animCleanup s1). destruct s1; reflexivity. }
  destruct H2 as (f & c & ->).
  assert (H3 : forget (if m then metricsEffect (set_frames f c s1)
                       else set_frames f c s1)
               = forget (if m then metricsEffect (metricsCleanup s) else s)).
  { subst s1. destruct m.
    - rewrite metricsEffect_set_frames. apply forget_set_frames.
    - apply forget_set_frames. }
  rewrite <- H3. clear H3.
  set (s3 := if m then metricsEffect (set_frames f c s1) else set_frames f c s1).
  destruct a.
  - destruct (animatorEffect_frames s3 rnd) as (f' & c' & ->).
    apply forget_set_frames.
  - reflexivity.
Qed.

Lemma forget_onAnimationFrame (s : App) (rnd : Stream) :
  forget (run (onAnimationFrame s) rnd) = forget s.
Proof.
  unfold onAnimationFrame, run, bind, ret.
  destruct (forEach animate (frames s) rnd) as [fs r]. reflexivity.
Qed.

Lemma Inv_forget (s : App) : Inv (forget s) -> Inv s.
Proof.
  intros [H1 H2 H3 H4 H5 H6 H7 H8 H9]. constructor; assumption.
Qed.

Lemma Inv_of_forget (s t : App) : forget s = forget t -> Inv t -> Inv s.
Proof.
  intros E [H1 H2 H3 H4 H5 H6 H7 H8 H9].
  apply Inv_forget. rewrite E. constructor; assumption.
Qed.

(** ** One tick, written out *)

Lemma step_TimerFires (c : Closure) (now : Z) (rnd : Stream) (s : App) :
  interval s = Some c ->
  step (TimerFires now) rnd s =
  let v := Tick.value (c_attackIntensity c) (c_security c) (rnd 0%nat) in
  set_legitimateTraffic (50 + rnd 1%nat * 20)
    (set_maliciousTraffic
       (Tick.totalTraffic (c_attackIntensity c)
        - Tick.blockedTraffic (c_attackIntensity c) (c_security c))
       (set_serverLoad (Tick.newServerLoad (c_serverConfig c) v)
          (set_metrics (pushMetric (metrics s) (mkMetricPoint now v)) s))).
Proof.
  intros H. unfold step, handle, onInterval. rewrite H. reflexivity.
Qed.

Lemma step_TimerFires_idle (now : Z) (rnd : Stream) (s : App) :
  interval s = None -> step (TimerFires now) rnd s = s.
Proof.
  intros H. unfold step, handle, onInterval. rewrite H. reflexivity.
Qed.

(** ** The invariant *)

Lemma Inv_init (canvasRef : option Canvas) : Inv (init canvasRef).
Proof.
  constructor; simpl; unfold config_ok, intensity_ok, in_percent; simpl;
    try reflexivity; try lia; try (split; lra); auto.
Qed.

Lemma Inv_rerun (s : App) :
  config_ok (serverConfig s) -> intensity_ok (attackIntensity s) ->
  (length (metrics s) <= 31)%nat ->
  Forall (fun p => in_percent (value p)) (metrics s) ->
  in_percent (serverLoad s) -> in_percent (legitimateTraffic s) ->
  0 <= maliciousTraffic s /\ maliciousTraffic s <= 200 ->
  Inv (metricsEffect (metricsCleanup s)).
Proof.
  intros H1 H2 H5 H6 H7 H8 H9.
  unfold metricsEffect, metricsCleanup.
  destruct (isSimulating s) eqn:E; cbn [negb isSimulating set_interval];
    rewrite ?E; cbn [negb];
    constructor; cbn; rewrite ?E; auto; try discriminate; simpl; lia.
Qed.

Lemma Inv_tick (s : App) (now : Z) (rnd : Stream) :
  draws_ok rnd -> Inv s -> Inv (step (TimerFires now) rnd s).
Proof.
  intros Hr [H1 H2 H3 H4 H5 H6 H7 H8 H9].
  destruct (isSimulating s) eqn:E.
  - rewrite (step_TimerFires _ now rnd s H3).
    cbn [c_attackIntensity c_security c_serverConfig].
    pose proof (value_bounds (attackIntensity s) (security s) (rnd 0%nat)) as Hv.
    constructor; cbn; rewrite ?E; auto; try discriminate.
    + apply pushMetric_length.
    + unfold pushMetric. apply Forall_app. split.
      * apply slice_last_Forall. exact H6.
      * constructor; [exact Hv | constructor].
    + apply newServerLoad_bounds; [ | apply Hv].
      destruct H1 as ((? & _) & (? & _) & (? & _) & _).
      apply serverCapacity_pos; assumption.
    + unfold in_percent. destruct (Hr 1%nat). split; lra.
    + apply malicious_bounds. exact H2.
  - rewrite (step_TimerFires_idle now rnd s H3).
    constructor; rewrite ?E; auto.
Qed.

Lemma Inv_step (s : App) (e : Event) (rnd : Stream) :
  event_ok e -> draws_ok rnd -> Inv s -> Inv (step e rnd s).
Proof.
  intros He Hr Hs. destruct e as [ | key v | key | v | now | ].
  - (* the button *)
    unfold step, handle, onClick, setIsSimulating.
    destruct (isSimulating s) eqn:E; cbn [negb Bool.eqb];
      (eapply Inv_of_forget; [apply forget_runEffects | ]);
      destruct Hs; apply Inv_rerun; assumption.
  - (* a server slider *)
    unfold step, handle, onChangeServerConfig.
    eapply Inv_of_forget; [apply forget_runEffects | ].
    destruct Hs as [H1 ? ? ? ? ? ? ? ?]. apply Inv_rerun; try assumption.
    unfold config_ok in *. cbn in He |- *.
    destruct key; cbn in He |- *; lia.
  - (* a security checkbox *)
    unfold step, handle, onChangeSecurity.
    eapply Inv_of_forget; [apply forget_runEffects | ].
    destruct Hs. apply Inv_rerun; assumption.
  - (* the attack slider *)
    unfold step, handle, onChangeAttackIntensity.
    destruct (v =? attackIntensity s)%Z; [exact Hs | ].
    eapply Inv_of_forget; [apply forget_runEffects | ].
    destruct Hs. apply Inv_rerun; assumption.
  - apply Inv_tick; assumption.
  - eapply Inv_of_forget; [apply forget_onAnimationFrame | exact Hs].
Qed.

Lemma reachable_Inv (s : App) : reachable s -> Inv s.
Proof.
  induction 1 as [c | s e rnd _ IH He Hr].
  - apply Inv_init.
  - apply Inv_step; assumption.
Qed.

Lemma reachable_runEvents (es : list Event) (rnd : Stream) (s : App) :
  Forall event_ok es -> draws_ok rnd -> reachable s ->
  reachable (runEvents es rnd s).
Proof.
  intros Hes Hr. revert s.
  induction Hes as [ | e es He _ IH]; intros s Hs; simpl.
  - exact Hs.
  - apply IH. apply reach_step; assumption.
Qed.

Lemma half_ok : draws_ok half.
Proof.
  intros n. unfold half. split; lra.
Qed.

Lemma reachable_started : reachable started.
Proof.
  apply reachable_runEvents;
    [repeat constructor | apply half_ok | apply reach_init].
Qed.

Lemma reachable_attacked : reachable attacked.
Proof.
  apply reachable_runEvents; [ | apply half_ok | apply reach_init].
  repeat constructor; simpl; lia.
Qed.

(** In a running state the timer's closure holds the current values. *)
Lemma running_closure (s : App) :
  reachable s -> Running s ->
  interval s = Some (mkClosure (attackIntensity s) (security s) (serverConfig s)).
Proof.
  intros Hs Hr. destruct (reachable_Inv s Hs) as [_ _ H _ _ _ _ _ _].
  rewrite Hr in H. exact H.
Qed.

(** ** The named inputs in binary64

    The values the specification names are exact in floating point too. *)

Example binary64_baseLoad :
  Binary64.baseLoad 100 5 = 25%float /\ Binary64.baseLoad 50 0 = 50%float.
Proof.
  split; vm_compute; reflexivity.
Qed.

Example binary64_maliciousTraffic :
  Binary64.maliciousTraffic 100 0 = 200%float.
Proof.
  vm_compute. reflexivity.
Qed.

Example binary64_getProtectionScore :
  map Binary64.getProtectionScore [0; 1; 2; 3; 4; 5]%float
  = [0; 20; 40; 60; 80; 100]%float.
Proof.
  vm_compute. reflexivity.
Qed.

Example binary64_serverCapacity :
  PrimFloat.ltb 27.25 (Binary64.serverCapacity 4 16 1000) = true
  /\ PrimFloat.ltb (Binary64.serverCapacity 4 16 1000) 27.5 = true.
Proof.
  split; vm_compute; reflexivity.
Qed.

(** ** Protection scorer *)

(** C4: for each of the 32 assignments of the five flags, the protection
    level is the number of flags that are true and lies between 0 and 5,
    and the protection score is that number divided by 5 and multiplied by
    100 (hence a percentage).  Both are functions of the five flags alone:
    total, with no state read or written. *)
Theorem C4_protection_scorer (security : SecurityMeasures) :
  protectionLevel security = countTrue security
  /\ (0 <= protectionLevel security <= 5)%nat
  /\ getProtectionScore security == (of_nat (countTrue security) / 5) * 100
  /\ in_percent (getProtectionScore security).
Proof.
  destruct security as [[] [] [] [] []];
    (split; [reflexivity | split; [cbv; lia | split; [reflexivity | ]]]);
    unfold in_percent; cbv; split; discriminate.
Qed.

(** ** Metrics engine *)

(** C5: on a tick of a running simulation, the base load is the attack
    intensity times (1 - 0.15 * protection level), the jitter [20r - 10] of
    a draw [r] lies in [-10,10], and the point appended to the history
    carries clamp(baseLoad + jitter, 0, 100).  With the five measures on
    and intensity 100 the base load is 25; with none and intensity 50 it
    is 50. *)
Theorem C5_load_sample (s : App) (now : Z) (rnd : Stream) :
  reachable s -> Running s -> draws_ok rnd ->
  let baseLoad :=
    inject_Z (attackIntensity s)
    * (1 - of_nat (protectionLevel (security s)) * 0.15) in
  let jitter := rnd 0%nat * 20 - 10 in
  (-10 <= jitter /\ jitter <= 10)
  /\ metrics (step (TimerFires now) rnd s)
     = slice_last 30 (metrics s)
       ++ [mkMetricPoint now (clamp (baseLoad + jitter) 0 100)]
  /\ Tick.baseLoad 100 allMeasures == 25
  /\ Tick.baseLoad 50 noMeasures == 50.
Proof.
  intros Hs Hrun Hr. cbv zeta.
  split; [ | split; [ | split; reflexivity]].
  - destruct (Hr 0%nat). split; lra.
  - rewrite (step_TimerFires _ now rnd s (running_closure s Hs Hrun)).
    reflexivity.
Qed.

Lemma C5_load_sample_witness :
  reachable started /\ Running started /\ draws_ok half
  /\ metrics (step (TimerFires 0) half started)
     = slice_last 30 (metrics started)
       ++ [mkMetricPoint 0
             (clamp (inject_Z (attackIntensity started)
                     * (1 - of_nat (protectionLevel (security started)) * 0.15)
                     + (half 0%nat * 20 - 10)) 0 100)].
Proof.
  split; [apply reachable_started | ].
  split; [reflexivity | ].
  split; [apply half_ok | ].
  apply (C5_load_sample started 0%Z half);
    [apply reachable_started | reflexivity | apply half_ok].
Defined.

(** C6: on a tick of a running simulation, the server capacity is
    (cpu*10 + ram*2 + bandwidth/100) / 3 and the server load is
    clamp(sample / capacity * 100, 0, 100), where sample is the value of
    the point appended by that tick.  For cpu = 4, ram = 16 and
    bandwidth = 1000 the capacity is 82/3. *)
Theorem C6_server_load (s : App) (now : Z) (rnd : Stream) :
  reachable s -> Running s -> draws_ok rnd ->
  let serverCapacity :=
    (inject_Z (cpu (serverConfig s)) * 10 + inject_Z (ram (serverConfig s)) * 2
     + inject_Z (bandwidth (serverConfig s)) / 100) / 3 in
  let s' := step (TimerFires now) rnd s in
  exists sample,
    metrics s' = slice_last 30 (metrics s) ++ [mkMetricPoint now sample]
    /\ serverLoad s' == clamp (sample / serverCapacity * 100) 0 100
    /\ Tick.serverCapacity (mkServerConfig 4 16 1000 500) == 82 / 3.
Proof.
  intros Hs Hrun Hr. cbv zeta.
  rewrite (step_TimerFires _ now rnd s (running_closure s Hs Hrun)).
  cbn [c_attackIntensity c_security c_serverConfig].
  exists (Tick.value (attackIntensity s) (security s) (rnd 0%nat)).
  split; [reflexivity | split; [ | reflexivity]].
  cbn. unfold Tick.newServerLoad, Math_min.
  fold (Tick.serverCapacity (serverConfig s)).
  symmetry. apply clamp_of_nonneg.
  destruct (reachable_Inv s Hs) as [((? & _) & (? & _) & (? & _) & _) _ _ _ _ _ _ _ _].
  assert (Hc : 0 < Tick.serverCapacity (serverConfig s))
    by (apply serverCapacity_pos; assumption).
  destruct (value_bounds (attackIntensity s) (security s) (rnd 0%nat)) as [Hv _].
  assert (0 <= Tick.value (attackIntensity s) (security s) (rnd 0%nat)
               / Tick.serverCapacity (serverConfig s))
    by (apply Qle_shift_div_l; [exact Hc | lra]).
  lra.
Qed.

Lemma C6_server_load_witness :
  reachable started /\ Running started /\ draws_ok half
  /\ exists sample,
       metrics (step (TimerFires 0) half started)
       = slice_last 30 (metrics started) ++ [mkMetricPoint 0 sample]
       /\ serverLoad (step (TimerFires 0) half started)
          == clamp (sample
                    / ((inject_Z (cpu (serverConfig started)) * 10
                        + inject_Z (ram (serverConfig started)) * 2
                        + inject_Z (bandwidth (serverConfig started)) / 100) / 3)
                    * 100) 0 100
       /\ Tick.serverCapacity (mkServerConfig 4 16 1000 500) == 82 / 3.
Proof.
  split; [apply reachable_started | ].
  split; [reflexivity | ].
  split; [apply half_ok | ].
  apply (C6_server_load started 0%Z half);
    [apply reachable_started | reflexivity | apply half_ok].
Defined.

(** C3: on a tick of a running simulation, the malicious traffic is
    totalTraffic - blockedTraffic with totalTraffic = attackIntensity * 2
    and blockedTraffic = totalTraffic * (protectionLevel * 0.2); the
    legitimate traffic is 50 plus a draw scaled into [0,20], whatever the
    attack intensity and the protection level: any other running state
    gets the same legitimate traffic from the same draws. *)
Theorem C3_traffic_split (s : App) (now : Z) (rnd : Stream) :
  reachable s -> Running s -> draws_ok rnd ->
  let totalTraffic := inject_Z (attackIntensity s) * 2 in
  let blockedTraffic :=
    totalTraffic * (of_nat (protectionLevel (security s)) * 0.2) in
  let draw := rnd 1%nat * 20 in
  let s' := step (TimerFires now) rnd s in
  maliciousTraffic s' = totalTraffic - blockedTraffic
  /\ (0 <= draw /\ draw <= 20)
  /\ legitimateTraffic s' = 50 + draw
  /\ forall t now', reachable t -> Running t ->
       legitimateTraffic (step (TimerFires now') rnd t) = legitimateTraffic s'.
Proof.
  intros Hs Hrun Hr. cbv zeta.
  rewrite (step_TimerFires _ now rnd s (running_closure s Hs Hrun)).
  split; [reflexivity | split; [ | split; [reflexivity | ]]].
  - destruct (Hr 1%nat). split; lra.
  - intros t now' Ht Hrt.
    rewrite (step_TimerFires _ now' rnd t (running_closure t Ht Hrt)).
    reflexivity.
Qed.

Lemma C3_traffic_split_witness :
  reachable attacked /\ Running attacked /\ draws_ok half
  /\ maliciousTraffic (step (TimerFires 0) half attacked)
     = inject_Z (attackIntensity attacked) * 2
       - inject_Z (attackIntensity attacked) * 2
         * (of_nat (protectionLevel (security attacked)) * 0.2)
  /\ legitimateTraffic (step (TimerFires 0) half attacked)
     = 50 + half 1%nat * 20.
Proof.
  split; [apply reachable_attacked | ].
  split; [reflexivity | ].
  split; [apply half_ok | ].
  destruct (C3_traffic_split attacked 0%Z half reachable_attacked
              eq_refl half_ok) as (Hm & _ & Hl & _).
  split; [exact Hm | exact Hl].
Defined.

(** C9: for every server configuration whose cpu, ram and bandwidth are at
    least 1, the server capacity is strictly positive; it is therefore not
    zero, and dividing by it is undone by multiplying with it, so the
    division of the tick is a division by a positive number.  The tick is a
    total function: it returns a state for every input. *)
Theorem C9_capacity_positive (c : ServerConfig) :
  (1 <= cpu c)%Z -> (1 <= ram c)%Z -> (1 <= bandwidth c)%Z ->
  0 < Tick.serverCapacity c
  /\ ~ Tick.serverCapacity c == 0
  /\ forall v, (v / Tick.serverCapacity c) * Tick.serverCapacity c == v.
Proof.
  intros Hc Hr Hb.
  pose proof (serverCapacity_pos c Hc Hr Hb) as Hpos.
  assert (Hnz : ~ Tick.serverCapacity c == 0) by (intros E; rewrite E in Hpos; lra).
  split; [exact Hpos | split; [exact Hnz | ]].
  intros v. field. exact Hnz.
Qed.

Lemma C9_capacity_positive_witness :
  (1 <= cpu minimalConfig)%Z /\ (1 <= ram minimalConfig)%Z
  /\ (1 <= bandwidth minimalConfig)%Z
  /\ 0 < Tick.serverCapacity minimalConfig.
Proof.
  split; [simpl; lia | ]. split; [simpl; lia | ]. split; [simpl; lia | ].
  apply (C9_capacity_positive minimalConfig); simpl; lia.
Defined.

(** C1 as stated fails: with the attack slider at 100 and no measure
    enabled, the first tick sets the malicious traffic to 200. *)
Lemma C1_counterexample :
  reachable attacked /\ Running attacked /\ draws_ok half
  /\ maliciousTraffic (step (TimerFires 0) half attacked) == 200
  /\ ~ in_percent (maliciousTraffic (step (TimerFires 0) half attacked)).
Proof.
  split; [apply reachable_attacked | ].
  split; [reflexivity | ].
  split; [apply half_ok | ].
  split.
  - vm_compute. reflexivity.
  - intros [_ H]. vm_compute in H. apply H. reflexivity.
Qed.

(** C1, amended: for every tick of a running simulation, the server load,
    the legitimate traffic and the value of every point of the history,
    the appended one included, lie in [0,100]; the malicious traffic lies
    in [0,200]. *)
Theorem C1_tick_ranges (s : App) (now : Z) (rnd : Stream) :
  reachable s -> Running s -> draws_ok rnd ->
  let s' := step (TimerFires now) rnd s in
  in_percent (serverLoad s')
  /\ in_percent (legitimateTraffic s')
  /\ (0 <= maliciousTraffic s' /\ maliciousTraffic s' <= 200)
  /\ Forall (fun p => in_percent (value p)) (metrics s')
  /\ exists p, metrics s' = slice_last 30 (metrics s) ++ [p]
               /\ in_percent (value p).
Proof.
  intros Hs Hrun Hr. cbv zeta.
  assert (Hs' : reachable (step (TimerFires now) rnd s))
    by (apply reach_step; [exact Hs | exact I | exact Hr]).
  destruct (reachable_Inv _ Hs') as [_ _ _ _ _ H6 H7 H8 H9].
  repeat (split; [assumption | ]).
  rewrite (step_TimerFires _ now rnd s (running_closure s Hs Hrun)).
  eexists. split; [reflexivity | apply value_bounds].
Qed.

Lemma C1_tick_ranges_witness :
  reachable attacked /\ Running attacked /\ draws_ok half
  /\ in_percent (serverLoad (step (TimerFires 0) half attacked))
  /\ in_percent (legitimateTraffic (step (TimerFires 0) half attacked))
  /\ (0 <= maliciousTraffic (step (TimerFires 0) half attacked)
      /\ maliciousTraffic (step (TimerFires 0) half attacked) <= 200).
Proof.
  split; [apply reachable_attacked | ].
  split; [reflexivity | ].
  split; [apply half_ok | ].
  destruct (C1_tick_ranges attacked 0%Z half reachable_attacked
              eq_refl half_ok) as (H1 & H2 & H3 & _).
  split; [exact H1 | split; [exact H2 | exact H3]].
Defined.

(** ** Stopping *)

Lemma forget_stop (s : App) (rnd : Stream) :
  Running s ->
  forget (step Click rnd s)
  = forget (set_metrics [] (set_interval None (set_isSimulating false s))).
Proof.
  intros Hrun. unfold step, handle, onClick, setIsSimulating.
  rewrite Hrun. cbn [negb Bool.eqb]. rewrite forget_runEffects.
  reflexivity.
Qed.

Lemma step_Click_stop (s : App) (rnd : Stream) :
  Running s -> step Click rnd s = run (stop s) rnd.
Proof.
  intros Hrun. unfold step, handle, onClick, stop. rewrite Hrun. reflexivity.
Qed.

(** C2 as stated fails: stopping after one tick empties the history but
    leaves the three derived values as the tick set them. *)
Lemma C2_counterexample :
  reachable ticked /\ Running ticked
  /\ Idle (step Click half ticked)
  /\ metrics (step Click half ticked) = []
  /\ ~ serverLoad (step Click half ticked) == 0
  /\ ~ legitimateTraffic (step Click half ticked) == 0
  /\ ~ maliciousTraffic (step Click half ticked) == 0.
Proof.
  split.
  { apply reachable_runEvents;
      [repeat constructor | apply half_ok | apply reach_init]. }
  repeat (split; [reflexivity | ]).
  repeat split; intros H; vm_compute in H; discriminate H.
Qed.

Lemma stop_from_running (s : App) (rnd : Stream) :
  Running s ->
  Idle (step Click rnd s) /\ metrics (step Click rnd s) = []
  /\ interval (step Click rnd s) = None.
Proof.
  intros Hrun. pose proof (forget_stop s rnd Hrun) as E.
  unfold Idle. repeat split.
  - apply (f_equal isSimulating) in E. exact E.
  - apply (f_equal metrics) in E. exact E.
  - apply (f_equal interval) in E. exact E.
Qed.

(** C2, amended: the stop transition, taken from any reachable running
    state, leaves the engine idle with an empty history and no timer; the
    server load, the legitimate traffic and the malicious traffic keep the
    values they had before the stop. *)
Theorem C2_stop_clears_history (s : App) (rnd : Stream) :
  reachable s -> Running s ->
  let s' := step Click rnd s in
  Idle s' /\ metrics s' = [] /\ interval s' = None
  /\ serverLoad s' = serverLoad s
  /\ legitimateTraffic s' = legitimateTraffic s
  /\ maliciousTraffic s' = maliciousTraffic s.
Proof.
  intros _ Hrun. cbv zeta.
  pose proof (forget_stop s rnd Hrun) as E.
  unfold Idle. repeat split.
  - apply (f_equal isSimulating) in E. exact E.
  - apply (f_equal metrics) in E. exact E.
  - apply (f_equal interval) in E. exact E.
  - apply (f_equal serverLoad) in E. exact E.
  - apply (f_equal legitimateTraffic) in E. exact E.
  - apply (f_equal maliciousTraffic) in E. exact E.
Qed.

Lemma C2_stop_clears_history_witness :
  reachable started /\ Running started
  /\ Idle (step Click half started)
  /\ metrics (step Click half started) = []
  /\ serverLoad (step Click half started) = serverLoad started.
Proof.
  split; [apply reachable_started | ].
  split; [reflexivity | ].
  destruct (C2_stop_clears_history started half reachable_started eq_refl)
    as (H1 & H2 & _ & H4 & _).
  split; [exact H1 | split; [exact H2 | exact H4]].
Defined.

(** ** The history is a sliding window *)

(** C7: the history never holds more than 31 points in a reachable state.
    A tick of a running simulation keeps the most recent points of the
    previous history in their order, drops what precedes them (at most one
    point, and none while the history has at most 30), and appends exactly
    one point, stamped with the time of the tick, at the end. *)
Theorem C7_sliding_window (s : App) (now : Z) (rnd : Stream) :
  reachable s -> Running s -> draws_ok rnd ->
  let s' := step (TimerFires now) rnd s in
  (length (metrics s) <= 31)%nat
  /\ (length (metrics s') <= 31)%nat
  /\ exists dropped kept p,
       metrics s = dropped ++ kept
       /\ metrics s' = kept ++ [p]
       /\ timestamp p = now
       /\ length dropped = (length (metrics s) - 30)%nat
       /\ (length dropped <= 1)%nat.
Proof.
  intros Hs Hrun Hr. cbv zeta.
  destruct (reachable_Inv s Hs) as [_ _ _ _ H5 _ _ _ _].
  rewrite (step_TimerFires _ now rnd s (running_closure s Hs Hrun)).
  cbn [metrics set_legitimateTraffic set_maliciousTraffic set_serverLoad
       set_metrics].
  split; [exact H5 | split; [apply pushMetric_length | ]].
  exists (firstn (length (metrics s) - 30) (metrics s)),
         (slice_last 30 (metrics s)).
  eexists. split; [apply slice_last_suffix | ].
  split; [reflexivity | split; [reflexivity | ]].
  rewrite length_firstn. lia.
Qed.

Lemma C7_sliding_window_witness :
  reachable ticked /\ Running ticked /\ draws_ok half
  /\ (length (metrics ticked) <= 31)%nat
  /\ (length (metrics (step (TimerFires 1) half ticked)) <= 31)%nat.
Proof.
  assert (H : reachable ticked).
  { apply reachable_runEvents;
      [repeat constructor | apply half_ok | apply reach_init]. }
  split; [exact H | ].
  split; [reflexivity | ].
  split; [apply half_ok | ].
  destruct (C7_sliding_window ticked 1%Z half H eq_refl half_ok)
    as (H1 & H2 & _).
  split; [exact H1 | exact H2].
Defined.

(** ** Particles *)

Lemma draws_ok_tail (r : Stream) : draws_ok r -> draws_ok (fun n => r (S n)).
Proof.
  intros H n. apply H.
Qed.

Lemma preserves_ret {A : Type} (a : A) : preserves (ret a).
Proof.
  intros r H. exact H.
Qed.

Lemma preserves_random : preserves Math_random.
Proof.
  intros r H. apply draws_ok_tail. exact H.
Qed.

Lemma preserves_bind {A B : Type} (m : Rnd A) (k : A -> Rnd B) :
  preserves m -> (forall a, preserves (k a)) -> preserves (bind m k).
Proof.
  intros Hm Hk r Hr. unfold bind.
  specialize (Hm r Hr). destruct (m r) as [a r']. apply Hk. exact Hm.
Qed.

Create HintDb draws.
#[local] Hint Resolve preserves_ret preserves_random : draws.

Lemma preserves_resetParticle canvas security particle forceType :
  preserves (resetParticle canvas security particle forceType).
Proof.
  unfold resetParticle.
  do 2 (apply preserves_bind; [apply preserves_random | intros ?]).
  apply preserves_bind.
  - destruct forceType; [auto with draws | ].
    apply preserves_bind; [auto with draws | intros ?; auto with draws].
  - intros [ | ]; [ | auto with draws].
    destruct (4 <=? protectionLevel security)%nat; [auto with draws | ].
    destruct (2 <=? protectionLevel security)%nat; auto with draws.
Qed.

Lemma preserves_advance canvas security particle :
  preserves (advance canvas security particle).
Proof.
  unfold advance.
  destruct (Qgt_bool _ _); [apply preserves_resetParticle | auto with draws].
Qed.

Lemma preserves_forEach {A : Type} (f : A -> Rnd A) (l : list A) :
  (forall a, preserves (f a)) -> preserves (forEach f l).
Proof.
  intros Hf. induction l as [ | a l IH]; simpl; [auto with draws | ].
  apply preserves_bind; [apply Hf | intros a'].
  apply preserves_bind; [exact IH | intros l'; auto with draws].
Qed.

Lemma preserves_animate (l : AnimLoop) : preserves (animate l).
Proof.
  unfold animate. apply preserves_bind; [ | intros; auto with draws].
  apply preserves_forEach. intros p. apply preserves_advance.
Qed.

(** What [forEach] does to the element at one index. *)
Lemma forEach_nth {A : Type} (f : A -> Rnd A) (l : list A) :
  (forall a, preserves (f a)) ->
  forall (rnd : Stream) (j : nat) (a' : A),
    draws_ok rnd ->
    nth_error (fst (forEach f l rnd)) j = Some a' ->
    exists a r, draws_ok r /\ nth_error l j = Some a /\ a' = fst (f a r).
Proof.
  intros Hf. induction l as [ | a l IH]; intros rnd j a' Hr H.
  - destruct j; discriminate H.
  - simpl in H. unfold bind in H.
    pose proof (Hf a rnd Hr) as Hr1.
    destruct (f a rnd) as [b r1] eqn:E1.
    destruct (forEach f l r1) as [l' r2] eqn:E2.
    simpl in H. destruct j as [ | j].
    + injection H as <-. exists a, rnd. rewrite E1. auto.
    + simpl in H. replace l' with (fst (forEach f l r1)) in H by (rewrite E2; reflexivity).
      destruct (IH r1 j a' Hr1 H) as (a0 & r & ? & ? & ?).
      exists a0, r. auto.
Qed.

Lemma forEach_length {A : Type} (f : A -> Rnd A) (l : list A) (rnd : Stream) :
  length (fst (forEach f l rnd)) = length l.
Proof.
  revert rnd. induction l as [ | a l IH]; intros rnd; [reflexivity | ].
  simpl. unfold bind. destruct (f a rnd) as [b r1].
  specialize (IH r1). destruct (forEach f l r1) as [l' r2].
  simpl in *. congruence.
Qed.

Lemma forEach_nth_some {A : Type} (f : A -> Rnd A) (l : list A) :
  (forall a, preserves (f a)) ->
  forall (rnd : Stream) (j : nat) (a : A),
    draws_ok rnd ->
    nth_error l j = Some a ->
    exists r, draws_ok r
              /\ nth_error (fst (forEach f l rnd)) j = Some (fst (f a r)).
Proof.
  intros Hf. induction l as [ | b l IH]; intros rnd j a Hr H.
  - destruct j; discriminate H.
  - simpl. unfold bind.
    pose proof (Hf b rnd Hr) as Hr1.
    destruct (f b rnd) as [b' r1] eqn:E1.
    destruct j as [ | j].
    + injection H as <-. exists rnd. split; [exact Hr | ].
      destruct (forEach f l r1). rewrite E1. reflexivity.
    + destruct (IH r1 j a Hr1 H) as (r & Hr' & Hn).
      exists r. split; [exact Hr' | ].
      destruct (forEach f l r1). exact Hn.
Qed.

(** The reset rule holds of every particle [resetParticle] returns. *)
Lemma resetParticle_rule canvas security particle (r : Stream) :
  draws_ok r ->
  reset_rule canvas (protectionLevel security) (r 0%nat) (r 1%nat)
    (fst (resetParticle canvas security particle None r)).
Proof.
  intros Hr. destruct (Hr 0%nat) as [Hy0 Hy1]. destruct (Hr 1%nat) as [Hs0 Hs1].
  assert (Hy : (0 <= height canvas)%Z ->
               0 <= r 0%nat * inject_Z (height canvas)
               /\ r 0%nat * inject_Z (height canvas) <= inject_Z (height canvas)).
  { intros Hh. rewrite Zle_Qle in Hh. change (inject_Z 0) with 0 in Hh.
    split; nra. }
  assert (Hb : 2 <= 2 + r 1%nat * 3 /\ 2 + r 1%nat * 3 <= 5) by (split; lra).
  unfold resetParticle, bind, Math_random, ret.
  destruct (Qgt_bool (r 2%nat) 0.7).
  - (* legitimate *)
    cbn [fst]. unfold reset_rule. cbn [x y speed color type].
    repeat split; intros; try discriminate; try tauto.
  - (* attack *)
    destruct (Nat.leb_spec 4 (protectionLevel security)) as [L4 | L4];
      [ | destruct (Nat.leb_spec 2 (protectionLevel security)) as [L2 | L2]];
      cbn [fst]; unfold reset_rule; cbn [x y speed color type];
      repeat split; intros; try discriminate; try tauto; lia.
Qed.

(** ** The scheduled loops *)

Lemma update_last_app {A : Type} (f : A -> A) (l : list A) (a : A) :
  update_last f (l ++ [a]) = l ++ [f a].
Proof.
  induction l as [ | b l IH]; [reflexivity | ].
  simpl. rewrite IH. destruct (l ++ [a]) eqn:E; [ | reflexivity].
  destruct l; discriminate E.
Qed.

Lemma update_last_nth {A : Type} (f : A -> A) (l : list A) (i : nat) (a : A) :
  nth_error l i = Some a ->
  nth_error (update_last f l) i = Some a
  \/ nth_error (update_last f l) i = Some (f a).
Proof.
  revert i. induction l as [ | b l IH]; intros i H.
  - destruct i; discriminate H.
  - destruct l as [ | c l].
    + destruct i as [ | i]; [injection H as <-; right; reflexivity | ].
      destruct i; discriminate H.
    + destruct i as [ | i]; [left; exact H | ].
      change (update_last f (b :: c :: l)) with (b :: update_last f (c :: l)).
      apply (IH i). exact H.
Qed.

Lemma frames_metricsEffect (s : App) :
  frames (metricsEffect s) = frames s
  /\ animCleanup (metricsEffect s) = animCleanup s
  /\ security (metricsEffect s) = security s.
Proof.
  unfold metricsEffect. destruct (isSimulating s); auto.
Qed.

Lemma FramesInv_ext (s t : App) :
  frames s = frames t -> animCleanup s = animCleanup t ->
  security s = security t -> FramesInv t -> FramesInv s.
Proof.
  intros Hf Hc Hsec (olds & Ho & H). exists olds. split; [exact Ho | ].
  rewrite Hc, Hf, Hsec. exact H.
Qed.

Lemma FramesInv_cleanup (s s0 : App) :
  FramesInv s -> frames s0 = frames s -> animCleanup s0 = animCleanup s ->
  AllDiscarded (animatorCleanup s0).
Proof.
  intros (olds & Ho & H) Hf Hc. unfold AllDiscarded, animatorCleanup.
  rewrite Hc. destruct (animCleanup s) eqn:E.
  - destruct H as (l & Hl & _). cbn. split; [reflexivity | ].
    rewrite Hf, Hl, update_last_app. apply Forall_app. split; [exact Ho | ].
    constructor; [reflexivity | constructor].
  - split; [congruence | ]. rewrite Hf, H. exact Ho.
Qed.

Lemma AllDiscarded_metricsEffect (s : App) :
  AllDiscarded s -> AllDiscarded (metricsEffect s).
Proof.
  intros [H1 H2]. destruct (frames_metricsEffect s) as (Hf & Hc & _).
  unfold AllDiscarded. rewrite Hf, Hc. auto.
Qed.

Lemma FramesInv_animatorEffect (s : App) (rnd : Stream) :
  AllDiscarded s -> FramesInv (run (animatorEffect s) rnd).
Proof.
  intros [H1 H2]. unfold animatorEffect, run, bind, ret.
  destruct (isSimulating s); cbn [negb fst];
    [ | exists (frames s); split; [exact H2 | reflexivity]].
  destruct (canvasRef s) as [canvas | ];
    [ | exists (frames s); split; [exact H2 | reflexivity]].
  destruct (context2d canvas); cbn [negb fst];
    [ | exists (frames s); split; [exact H2 | reflexivity]].
  destruct (initParticles canvas (security s) particleCount rnd) as [ps r1].
  unfold animate, bind, ret. cbn [loopCanvas loopSecurity particles].
  destruct (forEach (advance canvas (security s)) ps r1) as [ps' r2].
  cbn [fst]. exists (frames s). split; [exact H2 | ].
  cbn. eexists. split; reflexivity.
Qed.

Lemma FramesInv_runEffects (s s0 : App) (rnd : Stream) :
  FramesInv s -> frames s0 = frames s -> animCleanup s0 = animCleanup s ->
  FramesInv (run (runEffects true true s0) rnd).
Proof.
  intros Hs Hf Hc. unfold runEffects.
  apply FramesInv_animatorEffect, AllDiscarded_metricsEffect.
  apply (FramesInv_cleanup s); assumption.
Qed.

Lemma animate_discarded (l : AnimLoop) (rnd : Stream) :
  particles l = [] -> animate l rnd = (l, rnd).
Proof.
  intros H. unfold animate. rewrite H. destruct l; simpl in *. subst.
  reflexivity.
Qed.

Lemma forEach_animate_discarded (olds rest : list AnimLoop) (rnd : Stream) :
  Forall (fun l => particles l = []) olds ->
  forEach animate (olds ++ rest) rnd
  = (olds ++ fst (forEach animate rest rnd), snd (forEach animate rest rnd)).
Proof.
  induction 1 as [ | l olds Hl _ IH]; simpl.
  - destruct (forEach animate rest rnd); reflexivity.
  - unfold bind. rewrite (animate_discarded l rnd Hl), IH. reflexivity.
Qed.

Lemma FramesInv_frame (s : App) (rnd : Stream) :
  FramesInv s -> FramesInv (step FrameFires rnd s).
Proof.
  intros (olds & Ho & H). unfold step, handle, onAnimationFrame, run, bind, ret.
  exists olds. split; [exact Ho | ].
  destruct (animCleanup s) eqn:E.
  - destruct H as (l & Hl & Hsec). rewrite Hl.
    rewrite (forEach_animate_discarded olds [l] rnd Ho). cbn [fst].
    cbn [animCleanup frames security set_frames].
    cbn [forEach]. unfold bind, ret, animate. unfold bind, ret.
    destruct (forEach (advance (loopCanvas l) (loopSecurity l)) (particles l) rnd)
      as [ps r1].
    cbn [fst]. eexists. split; [reflexivity | exact Hsec].
  - rewrite H.
    pose proof (forEach_animate_discarded olds [] rnd Ho) as F.
    rewrite app_nil_r in F. rewrite F. cbn [fst].
    cbn [animCleanup frames security set_frames].
    simpl. apply app_nil_r.
Qed.

Lemma FramesInv_init (canvasRef : option Canvas) : FramesInv (init canvasRef).
Proof.
  exists []. split; [constructor | reflexivity].
Qed.

Lemma FramesInv_step (s : App) (e : Event) (rnd : Stream) :
  FramesInv s -> FramesInv (step e rnd s).
Proof.
  intros Hs. destruct e as [ | key v | key | v | now | ].
  - unfold step, handle, onClick, setIsSimulating.
    destruct (isSimulating s); cbn [negb Bool.eqb];
      apply (FramesInv_runEffects s); auto.
  - unfold step, handle, onChangeServerConfig.
    change (run (runEffects true false ?t) rnd)
      with (metricsEffect (metricsCleanup t)).
    match goal with |- FramesInv (metricsEffect ?t) =>
      destruct (frames_metricsEffect t) as (Hf & Hc & Hsec) end.
    eapply FramesInv_ext; [exact Hf | exact Hc | exact Hsec | ].
    eapply FramesInv_ext; [ | | | exact Hs]; reflexivity.
  - unfold step, handle, onChangeSecurity.
    apply (FramesInv_runEffects s); auto.
  - unfold step, handle, onChangeAttackIntensity.
    destruct (v =? attackIntensity s)%Z; [exact Hs | ].
    change (run (runEffects true false ?t) rnd)
      with (metricsEffect (metricsCleanup t)).
    match goal with |- FramesInv (metricsEffect ?t) =>
      destruct (frames_metricsEffect t) as (Hf & Hc & Hsec) end.
    eapply FramesInv_ext; [exact Hf | exact Hc | exact Hsec | ].
    eapply FramesInv_ext; [ | | | exact Hs]; reflexivity.
  - destruct (interval s) as [c | ] eqn:E.
    + rewrite (step_TimerFires c now rnd s E).
      eapply FramesInv_ext; [ | | | exact Hs]; reflexivity.
    + rewrite (step_TimerFires_idle now rnd s E). exact Hs.
  - apply FramesInv_frame. exact Hs.
Qed.

Lemma reachable_FramesInv (s : App) : reachable s -> FramesInv s.
Proof.
  induction 1 as [c | s e rnd _ IH _ _].
  - apply FramesInv_init.
  - apply FramesInv_step. exact IH.
Qed.

Lemma frames_animatorEffect (s : App) (rnd : Stream) :
  exists news, frames (run (animatorEffect s) rnd) = frames s ++ news.
Proof.
  unfold animatorEffect, run, bind, ret.
  destruct (isSimulating s); cbn [negb fst];
    [ | exists []; symmetry; apply app_nil_r].
  destruct (canvasRef s) as [canvas | ];
    [ | exists []; symmetry; apply app_nil_r].
  destruct (context2d canvas); cbn [negb fst];
    [ | exists []; symmetry; apply app_nil_r].
  destruct (initParticles canvas (security s) particleCount rnd) as [ps r1].
  destruct (animate (mkAnimLoop canvas (security s) ps) r1) as [l r2].
  cbn [fst]. exists [l]. reflexivity.
Qed.

Lemma frames_runEffects (s : App) (rnd : Stream) :
  exists news,
    frames (run (runEffects true true s) rnd)
    = (if animCleanup s then update_last emptied (frames s) else frames s)
      ++ news.
Proof.
  unfold runEffects.
  destruct (frames_animatorEffect
              (metricsEffect (animatorCleanup (metricsCleanup s))) rnd)
    as (news & ->).
  exists news. f_equal.
  destruct (frames_metricsEffect (animatorCleanup (metricsCleanup s)))
    as (-> & _ & _).
  unfold animatorCleanup, metricsCleanup. cbn.
  destruct (animCleanup s); reflexivity.
Qed.

(** Outside a frame, a loop that was scheduled is still scheduled, at
    the same place, either as it was or with its particles dropped. *)
Lemma step_frames_kept (s : App) (e : Event) (rnd : Stream) (i : nat)
    (l : AnimLoop) :
  e <> FrameFires -> nth_error (frames s) i = Some l ->
  nth_error (frames (step e rnd s)) i = Some l
  \/ nth_error (frames (step e rnd s)) i = Some (emptied l).
Proof.
  intros He Hl.
  assert (Hi : (i < length (frames s))%nat)
    by (apply nth_error_Some; congruence).
  assert (Hrun : forall s0, frames s0 = frames s ->
            nth_error (frames (run (runEffects true true s0) rnd)) i = Some l
            \/ nth_error (frames (run (runEffects true true s0) rnd)) i
               = Some (emptied l)).
  { intros s0 Hf. destruct (frames_runEffects s0 rnd) as (news & ->).
    rewrite Hf. destruct (animCleanup s0).
    - destruct (update_last_nth emptied (frames s) i l Hl) as [H | H];
        [left | right]; rewrite nth_error_app1; try exact H;
        apply nth_error_Some; congruence.
    - left. rewrite nth_error_app1; assumption. }
  destruct e as [ | key v | key | v | now | ]; try contradiction.
  - unfold step, handle, onClick, setIsSimulating.
    destruct (isSimulating s); cbn [negb Bool.eqb]; apply Hrun; reflexivity.
  - left. unfold step, handle, onChangeServerConfig.
    change (run (runEffects true false ?t) rnd)
      with (metricsEffect (metricsCleanup t)).
    match goal with |- context [metricsEffect ?t] =>
      destruct (frames_metricsEffect t) as (-> & _ & _) end.
    exact Hl.
  - unfold step, handle, onChangeSecurity. apply Hrun. reflexivity.
  - left. unfold step, handle, onChangeAttackIntensity.
    destruct (v =? attackIntensity s)%Z; [exact Hl | ].
    change (run (runEffects true false ?t) rnd)
      with (metricsEffect (metricsCleanup t)).
    match goal with |- context [metricsEffect ?t] =>
      destruct (frames_metricsEffect t) as (-> & _ & _) end.
    exact Hl.
  - left. destruct (interval s) as [c | ] eqn:E.
    + rewrite (step_TimerFires c now rnd s E). exact Hl.
    + rewrite (step_TimerFires_idle now rnd s E). exact Hl.
Qed.

(** In a frame, every scheduled loop runs [animate] ... *)
Lemma step_frame_loop (s : App) (rnd : Stream) (i : nat) (l : AnimLoop) :
  draws_ok rnd -> nth_error (frames s) i = Some l ->
  exists r, draws_ok r
            /\ nth_error (frames (step FrameFires rnd s)) i
               = Some (fst (animate l r)).
Proof.
  intros Hr Hl.
  destruct (forEach_nth_some animate (frames s) preserves_animate rnd i l Hr Hl)
    as (r & Hr' & H).
  exists r. split; [exact Hr' | ].
  unfold step, handle, onAnimationFrame, run, bind, ret.
  destruct (forEach animate (frames s) rnd) as [fs r0]. exact H.
Qed.

(** ... in which every particle goes through [advance], with the canvas
    and the measures of its loop. *)
Lemma animate_particle (l : AnimLoop) (r : Stream) (j : nat) (p p' : Particle) :
  draws_ok r ->
  nth_error (particles l) j = Some p ->
  nth_error (particles (fst (animate l r))) j = Some p' ->
  exists r', draws_ok r'
             /\ p' = fst (advance (loopCanvas l) (loopSecurity l) p r').
Proof.
  intros Hr Hp Hp'.
  unfold animate, bind, ret in Hp'.
  destruct (forEach (advance (loopCanvas l) (loopSecurity l)) (particles l) r)
    as [ps r2] eqn:E2.
  cbn [fst particles] in Hp'.
  replace ps with
    (fst (forEach (advance (loopCanvas l) (loopSecurity l)) (particles l) r))
    in Hp' by (rewrite E2; reflexivity).
  destruct (forEach_nth _ (particles l)
              (preserves_advance (loopCanvas l) (loopSecurity l)) r j p' Hr Hp')
    as (p0 & r' & Hr' & Hp0 & ->).
  assert (p0 = p) by congruence. subst p0.
  exists r'. auto.
Qed.

Lemma animate_length (l : AnimLoop) (r : Stream) :
  length (particles (fst (animate l r))) = length (particles l).
Proof.
  unfold animate, bind, ret.
  pose proof (forEach_length (advance (loopCanvas l) (loopSecurity l))
                (particles l) r) as H.
  destruct (forEach (advance (loopCanvas l) (loopSecurity l)) (particles l) r).
  exact H.
Qed.

(** A loop that still has particles was created under the current
    measures. *)
Lemma live_loop_security (s : App) (i : nat) (l : AnimLoop) :
  reachable s -> nth_error (frames s) i = Some l -> particles l <> [] ->
  loopSecurity l = security s.
Proof.
  intros Hs Hl Hne. destruct (reachable_FramesInv s Hs) as (olds & Ho & H).
  apply nth_error_In in Hl. rewrite Forall_forall in Ho.
  destruct (animCleanup s).
  - destruct H as (l0 & Hf & Hsec). rewrite Hf in Hl.
    apply in_app_or in Hl. destruct Hl as [Hl | [<- | []]].
    + elim Hne. apply Ho. exact Hl.
    + exact Hsec.
  - rewrite H in Hl. elim Hne. apply Ho. exact Hl.
Qed.

Lemma zeros_ok : draws_ok zeros.
Proof.
  intros n. unfold zeros. split; lra.
Qed.

Lemma reachable_flying : reachable flying.
Proof.
  apply reachable_runEvents; [ | apply zeros_ok | apply reach_init].
  constructor; [exact I | ]. apply Forall_forall.
  intros e He. apply repeat_spec in He. subst e. exact I.
Qed.

(** The frame after [flying] takes every particle past the edge: each is
    reset, red and at the base speed under no measure. *)
Example flying_reset :
  Qgt_bool (x flyingParticle + speed flyingParticle)
           (inject_Z (width theCanvas)) = true
  /\ frames (step FrameFires zeros flying)
     = [mkAnimLoop theCanvas noMeasures
          (repeat (mkParticle 0 0 2 red attack) particleCount)].
Proof.
  split; vm_compute; reflexivity.
Qed.

(** ** Stopping twice *)

Lemma stop_idle (s : App) (rnd : Stream) : Idle s -> run (stop s) rnd = s.
Proof.
  intros H. unfold stop, setIsSimulating. rewrite H. reflexivity.
Qed.

Lemma stop_reaches_idle (s : App) (rnd : Stream) :
  reachable s ->
  Idle (run (stop s) rnd) /\ metrics (run (stop s) rnd) = []
  /\ interval (run (stop s) rnd) = None.
Proof.
  intros Hs. destruct (isSimulating s) eqn:E.
  - rewrite <- (step_Click_stop s rnd E).
    destruct (stop_from_running s rnd E) as (H1 & H2 & H3).
    auto.
  - rewrite (stop_idle s rnd E).
    destruct (reachable_Inv s Hs) as [_ _ H3 H4 _ _ _ _ _].
    rewrite E in H3. unfold Idle. auto.
Qed.

(** On the state of the engine, a second stop changes nothing. *)
Lemma stop_idempotent (s : App) (rnd rnd' : Stream) :
  reachable s -> run (stop (run (stop s) rnd)) rnd' = run (stop s) rnd.
Proof.
  intros Hs. apply stop_idle. apply (stop_reaches_idle s rnd Hs).
Qed.

(** No event takes a scheduled [animate] callback off the schedule. *)
Lemma frames_never_cancelled (s : App) (e : Event) (rnd : Stream) :
  (length (frames s) <= length (frames (step e rnd s)))%nat.
Proof.
  assert (Hdec : e = FrameFires \/ e <> FrameFires)
    by (destruct e; (left; reflexivity) || (right; discriminate)).
  destruct Hdec as [-> | He].
  - unfold step, handle, onAnimationFrame, run, bind, ret.
    pose proof (forEach_length animate (frames s) rnd) as H.
    destruct (forEach animate (frames s) rnd) as [fs r].
    cbn in *. lia.
  - destruct (length (frames s)) as [ | n] eqn:E; [lia | ].
    destruct (nth_error (frames s) n) as [l | ] eqn:El.
    + assert (nth_error (frames (step e rnd s)) n <> None)
        by (destruct (step_frames_kept s e rnd n l He El) as [H | H];
            rewrite H; discriminate).
      apply nth_error_Some in H. lia.
    + apply nth_error_None in El. lia.
Qed.

(** C10, evaluated on start, stop, stop: the second stop returns the state
    of the first, which is idle with an empty history and no timer; but
    the [animate] callback of the run is still scheduled after the stop,
    and is scheduled again after the next frame. *)
Theorem C10_stop_leaves_frame_loop :
  stoppedTwice = stoppedOnce
  /\ Idle stoppedOnce
  /\ metrics stoppedOnce = []
  /\ interval stoppedOnce = None
  /\ frames stoppedOnce = [emptied (mkAnimLoop theCanvas noMeasures [])]
  /\ frames (step FrameFires half stoppedOnce) = frames stoppedOnce.
Proof.
  split; [apply stop_idle; vm_compute; reflexivity | ].
  split; [vm_compute; reflexivity | ].
  split; [vm_compute; reflexivity | ].
  split; [vm_compute; reflexivity | ].
  split; vm_compute; reflexivity.
Qed.

(** ** The leaked frame loop, in general *)

Lemma animatorEffect_cleanup (s : App) (rnd : Stream) :
  CleanupInv (run (animatorEffect s) rnd).
Proof.
  unfold CleanupInv, usable, animatorEffect, run, bind, ret.
  destruct (isSimulating s) eqn:E; cbn [negb fst];
    [ | cbn; rewrite E; reflexivity].
  destruct (canvasRef s) as [canvas | ] eqn:Ec;
    [ | cbn; rewrite E, Ec; reflexivity].
  destruct (context2d canvas) eqn:Ex; cbn [negb fst];
    [ | cbn; rewrite E, Ec, Ex; reflexivity].
  destruct (initParticles canvas (security s) particleCount rnd) as [ps r1].
  destruct (animate (mkAnimLoop canvas (security s) ps) r1) as [l r2].
  cbn. rewrite E, Ec, Ex. reflexivity.
Qed.

Lemma CleanupInv_metricsEffect (s : App) :
  CleanupInv s -> CleanupInv (metricsEffect (metricsCleanup s)).
Proof.
  unfold CleanupInv, usable, metricsEffect, metricsCleanup.
  cbn [isSimulating set_interval negb].
  destruct (isSimulating s) eqn:E; cbn [negb]; cbn; rewrite ?E; intros H; exact H.
Qed.

Lemma CleanupInv_step (s : App) (e : Event) (rnd : Stream) :
  CleanupInv s -> CleanupInv (step e rnd s).
Proof.
  intros Hs. destruct e as [ | key v | key | v | now | ].
  - unfold step, handle, onClick, setIsSimulating.
    destruct (isSimulating s); cbn [negb Bool.eqb];
      unfold runEffects; apply animatorEffect_cleanup.
  - unfold step, handle, onChangeServerConfig.
    change (run (runEffects true false ?t) rnd)
      with (metricsEffect (metricsCleanup t)).
    apply CleanupInv_metricsEffect. exact Hs.
  - unfold step, handle, onChangeSecurity, runEffects.
    apply animatorEffect_cleanup.
  - unfold step, handle, onChangeAttackIntensity.
    destruct (v =? attackIntensity s)%Z; [exact Hs | ].
    change (run (runEffects true false ?t) rnd)
      with (metricsEffect (metricsCleanup t)).
    apply CleanupInv_metricsEffect. exact Hs.
  - destruct (interval s) as [c | ] eqn:E.
    + rewrite (step_TimerFires c now rnd s E). exact Hs.
    + rewrite (step_TimerFires_idle now rnd s E). exact Hs.
  - unfold step, handle, onAnimationFrame, run, bind, ret.
    destruct (forEach animate (frames s) rnd) as [fs r]. exact Hs.
Qed.

Lemma reachable_CleanupInv (s : App) : reachable s -> CleanupInv s.
Proof.
  induction 1 as [c | s e rnd _ IH _ _].
  - reflexivity.
  - apply CleanupInv_step. exact IH.
Qed.

(** A simulation running on a usable canvas has its loop scheduled. *)
Lemma running_has_loop (s : App) :
  reachable s -> Running s -> usable s = true -> frames s <> [].
Proof.
  intros Hs Hrun Hu. pose proof (reachable_CleanupInv s Hs) as Hc.
  unfold CleanupInv in Hc. rewrite Hrun, Hu in Hc.
  destruct (reachable_FramesInv s Hs) as (olds & _ & H).
  rewrite Hc in H. destruct H as (l & -> & _).
  destruct olds; discriminate.
Qed.

(** Stopping it leaves a callback on the schedule, and so does every event
    after that. *)
Lemma stop_leaves_loop (s : App) (rnd : Stream) :
  reachable s -> Running s -> usable s = true ->
  frames (run (stop s) rnd) <> [].
Proof.
  intros Hs Hrun Hu. rewrite <- (step_Click_stop s rnd Hrun).
  pose proof (running_has_loop s Hs Hrun Hu) as Hne.
  pose proof (frames_never_cancelled s Click rnd) as Hlen.
  destruct (frames s); [contradiction | ].
  destruct (frames (step Click rnd s)); [simpl in Hlen; lia | discriminate].
Qed.

(** ** A change of the measures and the particles in flight *)

(** The animator effect depends on [security]: a checkbox runs its cleanup
    and its body, so that every loop scheduled before the change is left
    without particles, and the particles drawn afterwards are those of a
    new loop. *)
Lemma security_change_drops_pool (s : App) (key : SecurityKey) (rnd : Stream)
    (i : nat) (l l' : AnimLoop) :
  reachable s ->
  nth_error (frames s) i = Some l ->
  nth_error (frames (step (SecurityCheckbox key) rnd s)) i = Some l' ->
  particles l' = [].
Proof.
  intros Hs Hl Hl'.
  assert (Hne : SecurityCheckbox key <> FrameFires) by discriminate.
  destruct (reachable_FramesInv s Hs) as (olds & Ho & H).
  pose proof (reachable_CleanupInv s Hs) as Hc.
  unfold step, handle, onChangeSecurity in Hl'.
  match type of Hl' with context [runEffects true true ?t] =>
    destruct (frames_runEffects t rnd) as (news & Hf) end.
  rewrite Hf in Hl'. clear Hf. cbn [animCleanup frames set_security] in Hl'.
  assert (Hi : (i < length (frames s))%nat)
    by (apply nth_error_Some; congruence).
  rewrite Forall_forall in Ho.
  destruct (animCleanup s).
  - destruct H as (l0 & Hf & _). rewrite Hf, update_last_app in Hl'.
    rewrite nth_error_app1 in Hl'
      by (rewrite Hf in Hi; rewrite !length_app in *; exact Hi).
    apply nth_error_In in Hl'. apply in_app_or in Hl'.
    destruct Hl' as [Hin | [<- | []]]; [apply Ho; exact Hin | reflexivity].
  - rewrite nth_error_app1 in Hl' by exact Hi.
    apply nth_error_In in Hl'. rewrite H in Hl'. apply Ho. exact Hl'.
Qed.

(** For instance, two measures enabled while the started simulation runs:
    the loop of the start has lost its particles, and the first particle
    drawn is one of a new loop, yellow and slowed, at its first step. *)
Example security_change_new_pool :
  let s := runEvents [SecurityCheckbox Kfail2ban; SecurityCheckbox Kwaf]
             half started in
  map (fun l => length (particles l)) (frames started) = [100%nat]
  /\ map (fun l => length (particles l)) (frames s) = [0; 0; 100]%nat
  /\ option_map (fun p => (color p, type p))
       (nth_error (particles (last (frames s) flyingLoop)) 0)
     = Some (yellow, attack).
Proof.
  cbv zeta. repeat split; vm_compute; reflexivity.
Qed.

(** ** The window at its bound *)

(** Thirty-five ticks stamped 1 to 35: the history holds the last 31, in
    the order of their arrival. *)
Example window_after_35_ticks :
  map timestamp
    (metrics (runEvents (map TimerFires (map Z.of_nat (seq 1 35))) half started))
  = map Z.of_nat (seq 5 31).
Proof.
  vm_compute. reflexivity.
Qed.

(** * Further properties of the component *)

Lemma reachable_reconfigured : reachable reconfigured.
Proof.
  apply reachable_runEvents; [ | apply half_ok | apply reach_init].
  repeat constructor; simpl; lia.
Qed.

Lemma reachable_halted : reachable halted.
Proof.
  apply reach_step; [apply reachable_reconfigured | exact I | apply half_ok].
Qed.

(** The engine's variables after a handler that re-runs the effects. *)
Lemma forget_step_shape (s : App) (e : Event) (rnd : Stream) :
  (forall now, e <> TimerFires now) ->
  forget (step e rnd s) = forget s
  \/ exists s0,
       forget (step e rnd s) = forget (metricsEffect (metricsCleanup s0))
       /\ metrics s0 = metrics s /\ serverLoad s0 = serverLoad s
       /\ legitimateTraffic s0 = legitimateTraffic s
       /\ maliciousTraffic s0 = maliciousTraffic s
       /\ (e <> Click -> isSimulating s0 = isSimulating s)
       /\ (e = Click -> isSimulating s0 = negb (isSimulating s)).
Proof.
  intros He. destruct e as [ | key v | key | v | now | ].
  - right. exists (set_isSimulating (negb (isSimulating s)) s).
    split.
    + unfold step, handle, onClick, setIsSimulating.
      destruct (isSimulating s); cbn [negb Bool.eqb];
        rewrite forget_runEffects; reflexivity.
    + cbn. repeat split; auto; congruence.
  - right. unfold step, handle, onChangeServerConfig.
    eexists. split; [rewrite forget_runEffects; reflexivity | ].
    cbn. repeat split; auto; congruence.
  - right. unfold step, handle, onChangeSecurity.
    eexists. split; [rewrite forget_runEffects; reflexivity | ].
    cbn. repeat split; auto; congruence.
  - unfold step, handle, onChangeAttackIntensity.
    destruct (v =? attackIntensity s)%Z; [left; reflexivity | right].
    eexists. split; [rewrite forget_runEffects; reflexivity | ].
    cbn. repeat split; auto; congruence.
  - elim (He now). reflexivity.
  - left. apply forget_onAnimationFrame.
Qed.

Lemma metricsEffect_derived (s0 : App) :
  serverLoad (metricsEffect (metricsCleanup s0)) = serverLoad s0
  /\ legitimateTraffic (metricsEffect (metricsCleanup s0)) = legitimateTraffic s0
  /\ maliciousTraffic (metricsEffect (metricsCleanup s0)) = maliciousTraffic s0
  /\ metrics (metricsEffect (metricsCleanup s0))
     = (if isSimulating s0 then metrics s0 else []).
Proof.
  unfold metricsEffect, metricsCleanup. cbn [isSimulating set_interval].
  destruct (isSimulating s0); cbn; auto.
Qed.

(** ** The timer and the history between ticks *)

(** X1: in every reachable state the interval timer exists exactly while
    the simulation runs, and its callback closes over the current attack
    intensity, security measures and server configuration: no tick ever
    computes with values older than the last slider or checkbox event. *)
Theorem X1_timer_closure_current (s : App) :
  reachable s ->
  interval s =
  if isSimulating s
  then Some (mkClosure (attackIntensity s) (security s) (serverConfig s))
  else None.
Proof.
  intros Hs. destruct (reachable_Inv s Hs) as [_ _ H _ _ _ _ _ _]. exact H.
Qed.

Lemma X1_timer_closure_current_witness :
  reachable reconfigured
  /\ interval reconfigured =
     if isSimulating reconfigured
     then Some (mkClosure (attackIntensity reconfigured) (security reconfigured)
                  (serverConfig reconfigured))
     else None.
Proof.
  split; [apply reachable_reconfigured | ].
  apply (X1_timer_closure_current reconfigured). apply reachable_reconfigured.
Defined.

(** X2: whenever the simulation is idle the history is empty, and so is
    the chart, and the live-analysis panel is not rendered; this holds at
    the first render, after a stop, and after any slider or checkbox used
    while idle. *)
Theorem X2_idle_history_empty (s : App) :
  reachable s -> Idle s ->
  metrics s = [] /\ chartData s = mkChartData [] [] /\ liveAnalysis s = None.
Proof.
  intros Hs Hi. destruct (reachable_Inv s Hs) as [_ _ _ H _ _ _ _ _].
  unfold chartData, liveAnalysis. rewrite (H Hi), Hi. repeat split.
Qed.

Lemma X2_idle_history_empty_witness :
  reachable halted /\ Idle halted
  /\ metrics halted = [] /\ chartData halted = mkChartData [] []
  /\ liveAnalysis halted = None.
Proof.
  split; [apply reachable_halted | ]. split; [reflexivity | ].
  apply (X2_idle_history_empty halted); [apply reachable_halted | reflexivity].
Defined.

(** X3: the sliders keep the configuration in range: in every reachable
    state cpu is in [1,32], ram in [1,128], bandwidth in [1,10000],
    storage in [1,2000] and the attack intensity in [0,100]. *)
Theorem X3_configuration_in_range (s : App) :
  reachable s ->
  config_ok (serverConfig s) /\ intensity_ok (attackIntensity s).
Proof.
  intros Hs. destruct (reachable_Inv s Hs) as [H1 H2 _ _ _ _ _ _ _]. auto.
Qed.

Lemma X3_configuration_in_range_witness :
  reachable reconfigured
  /\ config_ok (serverConfig reconfigured)
  /\ intensity_ok (attackIntensity reconfigured).
Proof.
  split; [apply reachable_reconfigured | ].
  apply (X3_configuration_in_range reconfigured). apply reachable_reconfigured.
Defined.

Lemma step_keeps_derived (s : App) (e : Event) (rnd : Stream) :
  (forall now, e <> TimerFires now) ->
  serverLoad (step e rnd s) = serverLoad s
  /\ legitimateTraffic (step e rnd s) = legitimateTraffic s
  /\ maliciousTraffic (step e rnd s) = maliciousTraffic s.
Proof.
  intros He.
  destruct (forget_step_shape s e rnd He) as [E | (s0 & E & _ & H1 & H2 & H3 & _)].
  - repeat split.
    + apply (f_equal serverLoad) in E. exact E.
    + apply (f_equal legitimateTraffic) in E. exact E.
    + apply (f_equal maliciousTraffic) in E. exact E.
  - destruct (metricsEffect_derived s0) as (D1 & D2 & D3 & _).
    repeat split.
    + apply (f_equal serverLoad) in E. cbn in E. congruence.
    + apply (f_equal legitimateTraffic) in E. cbn in E. congruence.
    + apply (f_equal maliciousTraffic) in E. cbn in E. congruence.
Qed.

(** X4: the server load, the legitimate traffic and the malicious traffic
    change on a tick only: the button, the sliders, the checkboxes and the
    display refresh leave all three as they are. *)
Theorem X4_derived_values_change_on_tick_only (s : App) (e : Event) (rnd : Stream) :
  (forall now, e <> TimerFires now) ->
  serverLoad (step e rnd s) = serverLoad s
  /\ legitimateTraffic (step e rnd s) = legitimateTraffic s
  /\ maliciousTraffic (step e rnd s) = maliciousTraffic s.
Proof.
  intros He. destruct (step_keeps_derived s e rnd He) as (H1 & H2 & H3).
  split; [exact H1 | split; [exact H2 | exact H3]].
Qed.

Lemma X4_derived_values_change_on_tick_only_witness :
  (forall now, SecurityCheckbox Kpfsense <> TimerFires now)
  /\ serverLoad (step (SecurityCheckbox Kpfsense) half reconfigured)
     = serverLoad reconfigured
  /\ legitimateTraffic (step (SecurityCheckbox Kpfsense) half reconfigured)
     = legitimateTraffic reconfigured
  /\ maliciousTraffic (step (SecurityCheckbox Kpfsense) half reconfigured)
     = maliciousTraffic reconfigured.
Proof.
  split; [intros now; discriminate | ].
  apply (X4_derived_values_change_on_tick_only reconfigured
           (SecurityCheckbox Kpfsense) half).
  intros now; discriminate.
Defined.

(** X5: the history is kept across every event other than a tick and a
    stop: moving a slider or ticking a checkbox while the simulation runs
    restarts the timer but does not clear the chart, and neither does a
    display refresh or a start. *)
Theorem X5_history_survives_configuration (s : App) (e : Event) (rnd : Stream) :
  reachable s ->
  (forall now, e <> TimerFires now) -> (e = Click -> Idle s) ->
  metrics (step e rnd s) = metrics s.
Proof.
  intros Hs He Hc.
  destruct (reachable_Inv s Hs) as [_ _ _ Hidle _ _ _ _ _].
  destruct (forget_step_shape s e rnd He)
    as [E | (s0 & E & M & _ & _ & _ & Hk & Hclick)].
  - apply (f_equal metrics) in E. exact E.
  - destruct (metricsEffect_derived s0) as (_ & _ & _ & D).
    apply (f_equal metrics) in E. cbn in E. rewrite E, D, M.
    destruct (isSimulating s0) eqn:E0; [reflexivity | ].
    symmetry. apply Hidle.
    assert (Hdec : e = Click \/ e <> Click)
      by (destruct e; (left; reflexivity) || (right; discriminate)).
    destruct Hdec as [-> | Hne].
    + apply Hc. reflexivity.
    + symmetry. apply Hk. exact Hne.
Qed.

Lemma X5_history_survives_configuration_witness :
  reachable reconfigured
  /\ (forall now, ServerSlider Kram 64 <> TimerFires now)
  /\ (ServerSlider Kram 64 = Click -> Idle reconfigured)
  /\ metrics (step (ServerSlider Kram 64) half reconfigured)
     = metrics reconfigured.
Proof.
  split; [apply reachable_reconfigured | ].
  split; [intros now; discriminate | ].
  split; [discriminate | ].
  apply (X5_history_survives_configuration reconfigured (ServerSlider Kram 64) half).
  - apply reachable_reconfigured.
  - intros now; discriminate.
  - discriminate.
Defined.

(** X6: the two periodic activities do not touch each other's variables.
    A display refresh replaces the particle arrays of the scheduled loops,
    one for one, and nothing else; a tick leaves the scheduled loops and
    the configuration as they are. *)
Theorem X6_frames_and_ticks_independent (s : App) (now : Z) (rnd : Stream) :
  (exists fs, step FrameFires rnd s = set_frames fs (animCleanup s) s
              /\ length fs = length (frames s))
  /\ frames (step (TimerFires now) rnd s) = frames s
  /\ animCleanup (step (TimerFires now) rnd s) = animCleanup s
  /\ serverConfig (step (TimerFires now) rnd s) = serverConfig s
  /\ security (step (TimerFires now) rnd s) = security s
  /\ attackIntensity (step (TimerFires now) rnd s) = attackIntensity s
  /\ isSimulating (step (TimerFires now) rnd s) = isSimulating s
  /\ interval (step (TimerFires now) rnd s) = interval s.
Proof.
  split.
  - unfold step, handle, onAnimationFrame, run, bind, ret.
    pose proof (forEach_length animate (frames s) rnd) as H.
    destruct (forEach animate (frames s) rnd) as [fs r].
    exists fs. split; [reflexivity | exact H].
  - destruct (interval s) as [c | ] eqn:E.
    + rewrite (step_TimerFires c now rnd s E). cbn. rewrite E. auto 10.
    + rewrite (step_TimerFires_idle now rnd s E). rewrite E. auto 10.
Qed.

(** X7: the storage slider has no effect on the metrics: the tick that
    follows a change of storage appends the same point and sets the same
    server load and traffic values as the tick without the change. *)
Theorem X7_storage_has_no_effect (s : App) (v now : Z) (rnd rnd' : Stream) :
  reachable s -> Running s -> (1 <= v <= 2000)%Z -> draws_ok rnd' ->
  let changed := step (ServerSlider Kstorage v) rnd' s in
  storage (serverConfig changed) = v
  /\ metrics (step (TimerFires now) rnd changed)
     = metrics (step (TimerFires now) rnd s)
  /\ serverLoad (step (TimerFires now) rnd changed)
     = serverLoad (step (TimerFires now) rnd s)
  /\ maliciousTraffic (step (TimerFires now) rnd changed)
     = maliciousTraffic (step (TimerFires now) rnd s)
  /\ legitimateTraffic (step (TimerFires now) rnd changed)
     = legitimateTraffic (step (TimerFires now) rnd s).
Proof.
  intros Hs Hrun Hv Hr'. cbv zeta.
  remember (step (ServerSlider Kstorage v) rnd' s) as changed eqn:Hch.
  assert (Hc : reachable changed)
    by (subst changed; apply reach_step; [exact Hs | exact Hv | exact Hr']).
  assert (E : forget changed
              = forget (metricsEffect (metricsCleanup
                  (set_serverConfig
                     (mkServerConfig (cpu (serverConfig s)) (ram (serverConfig s))
                        (bandwidth (serverConfig s)) v) s)))).
  { subst changed. unfold step, handle, onChangeServerConfig.
    rewrite forget_runEffects. reflexivity. }
  clear Hch.
  unfold metricsEffect, metricsCleanup in E.
  cbn [isSimulating set_interval set_serverConfig] in E. rewrite Hrun in E.
  cbn [negb] in E.
  assert (Hrc : Running changed)
    by (apply (f_equal isSimulating) in E; cbn in E; unfold Running;
        rewrite E; exact Hrun).
  rewrite (step_TimerFires _ now rnd changed (running_closure changed Hc Hrc)).
  rewrite (step_TimerFires _ now rnd s (running_closure s Hs Hrun)).
  pose proof (f_equal serverConfig E) as E1.
  pose proof (f_equal security E) as E2.
  pose proof (f_equal attackIntensity E) as E3.
  pose proof (f_equal metrics E) as E4.
  cbn in E1, E2, E3, E4. cbn. rewrite E1, E2, E3, E4.
  repeat split; reflexivity.
Qed.

Lemma X7_storage_has_no_effect_witness :
  reachable reconfigured /\ Running reconfigured /\ (1 <= 2000 <= 2000)%Z
  /\ draws_ok half
  /\ serverLoad (step (TimerFires 9) half
                   (step (ServerSlider Kstorage 2000) half reconfigured))
     = serverLoad (step (TimerFires 9) half reconfigured).
Proof.
  split; [apply reachable_reconfigured | ]. split; [reflexivity | ].
  split; [lia | ]. split; [apply half_ok | ].
  destruct (X7_storage_has_no_effect reconfigured 2000 9 half half
              reachable_reconfigured eq_refl) as (_ & _ & H & _);
    [lia | apply half_ok | exact H].
Defined.

(** ** The history over a run of ticks *)

Lemma slice_last_map {A B : Type} (f : A -> B) (n : nat) (l : list A) :
  map f (slice_last n l) = slice_last n (map f l).
Proof.
  unfold slice_last. rewrite length_map. symmetry. apply skipn_map.
Qed.

Lemma slice_last_app_long {A : Type} (n : nat) (l1 l2 : list A) :
  (n <= length l2)%nat -> slice_last n (l1 ++ l2) = slice_last n l2.
Proof.
  intros H. unfold slice_last. rewrite length_app, skipn_app.
  rewrite skipn_all2 by lia. simpl. f_equal. lia.
Qed.

Lemma slice_last_inner {A : Type} (n m : nat) (l rest : list A) :
  (n <= m + length rest)%nat ->
  slice_last n (slice_last m l ++ rest) = slice_last n (l ++ rest).
Proof.
  intros H. destruct (Nat.le_gt_cases (length l) m) as [Hl | Hl].
  - rewrite (slice_last_short m l Hl). reflexivity.
  - rewrite (slice_last_suffix m l) at 2. rewrite <- app_assoc.
    symmetry. apply slice_last_app_long.
    rewrite length_app, slice_last_length. lia.
Qed.

Lemma running_after_tick (s : App) (now : Z) (rnd : Stream) :
  reachable s -> Running s -> draws_ok rnd ->
  reachable (step (TimerFires now) rnd s)
  /\ Running (step (TimerFires now) rnd s)
  /\ map timestamp (metrics (step (TimerFires now) rnd s))
     = slice_last 30 (map timestamp (metrics s)) ++ [now].
Proof.
  intros Hs Hrun Hr.
  split; [apply reach_step; [exact Hs | exact I | exact Hr] | ].
  rewrite (step_TimerFires _ now rnd s (running_closure s Hs Hrun)).
  split; [exact Hrun | ].
  cbn. unfold pushMetric. rewrite map_app, slice_last_map. reflexivity.
Qed.

(** X23: over any run of ticks of a running simulation, the history
    holds the last 31 of all the ticks so far, in the order of their
    arrival: its time stamps are the last 31 of the time stamps it had,
    followed by those of the ticks. *)
Theorem X23_history_is_last_31_ticks (s : App) (ts : list Z) (rnd : Stream) :
  reachable s -> Running s -> draws_ok rnd ->
  map timestamp (metrics (runEvents (map TimerFires ts) rnd s))
  = slice_last 31 (map timestamp (metrics s) ++ ts).
Proof.
  intros Hs Hrun Hr. revert s Hs Hrun.
  induction ts as [ | now ts IH]; intros s Hs Hrun.
  - simpl. rewrite app_nil_r. symmetry. apply slice_last_short.
    rewrite length_map. destruct (reachable_Inv s Hs). assumption.
  - simpl.
    destruct (running_after_tick s now rnd Hs Hrun Hr) as (Hs' & Hrun' & E).
    rewrite (IH _ Hs' Hrun'), E. rewrite <- app_assoc. simpl.
    apply slice_last_inner. simpl. lia.
Qed.

Lemma X23_history_is_last_31_ticks_witness :
  reachable started /\ Running started /\ draws_ok half
  /\ map timestamp
       (metrics (runEvents (map TimerFires (map Z.of_nat (seq 1 40))) half started))
     = slice_last 31 (map timestamp (metrics started) ++ map Z.of_nat (seq 1 40)).
Proof.
  split; [apply reachable_started | ]. split; [reflexivity | ].
  split; [apply half_ok | ].
  apply (X23_history_is_last_31_ticks started (map Z.of_nat (seq 1 40)) half);
    [apply reachable_started | reflexivity | apply half_ok].
Defined.

(** X24: the legitimate traffic shown is 0 until the first tick and lies
    in [50,70] ever after, in every reachable state. *)
Theorem X24_legitimate_traffic_band (s : App) :
  reachable s ->
  legitimateTraffic s = 0
  \/ (50 <= legitimateTraffic s /\ legitimateTraffic s <= 70).
Proof.
  induction 1 as [c | s e rnd Hs IH He Hr].
  - left. reflexivity.
  - assert (Hdec : (exists now, e = TimerFires now)
                   \/ (forall now, e <> TimerFires now)).
    { destruct e; try (right; intros; discriminate). left. eauto. }
    destruct Hdec as [(now & ->) | Hne].
    + destruct (interval s) as [c | ] eqn:E.
      * right. rewrite (step_TimerFires c now rnd s E). cbn.
        destruct (Hr 1%nat). split; lra.
      * rewrite (step_TimerFires_idle now rnd s E). exact IH.
    + destruct (step_keeps_derived s e rnd Hne) as (_ & -> & _). exact IH.
Qed.

Lemma X24_legitimate_traffic_band_witness :
  reachable halted
  /\ (legitimateTraffic halted = 0
      \/ (50 <= legitimateTraffic halted /\ legitimateTraffic halted <= 70)).
Proof.
  split; [apply reachable_halted | ].
  apply (X24_legitimate_traffic_band halted). apply reachable_halted.
Defined.

(** ** How the formulas of a tick respond to the configuration *)

Lemma of_nat_le (n m : nat) : (n <= m)%nat -> of_nat n <= of_nat m.
Proof.
  intros H. unfold of_nat. rewrite <- Zle_Qle. lia.
Qed.

Lemma intensity_nonneg (a : Z) :
  intensity_ok a -> 0 <= inject_Z a /\ inject_Z a <= 100.
Proof.
  intros H. apply inject_Z_range in H. exact H.
Qed.

(** X8: enabling more measures never raises a tick's results: for the
    same attack intensity and the same draw, a higher protection level
    gives a base load, a recorded sample and a malicious traffic that are
    each at most what the lower level gives. *)
Theorem X8_protection_lowers_sample (a : Z) (s1 s2 : SecurityMeasures) (r : Q) :
  intensity_ok a -> (protectionLevel s1 <= protectionLevel s2)%nat ->
  Tick.baseLoad a s2 <= Tick.baseLoad a s1
  /\ Tick.value a s2 r <= Tick.value a s1 r
  /\ unblockedTraffic a s2 <= unblockedTraffic a s1.
Proof.
  intros Ha Hl. apply intensity_nonneg in Ha. destruct Ha as [Ha _].
  apply of_nat_le in Hl.
  assert (Hb : Tick.baseLoad a s2 <= Tick.baseLoad a s1)
    by (unfold Tick.baseLoad; nra).
  split; [exact Hb | split].
  - unfold Tick.value, Math_max, Math_min.
    apply Q.max_le_compat_l, Q.min_le_compat_l. lra.
  - unfold unblockedTraffic, Tick.blockedTraffic, Tick.totalTraffic. nra.
Qed.

Lemma X8_protection_lowers_sample_witness :
  intensity_ok 80 /\ (protectionLevel noMeasures <= protectionLevel allMeasures)%nat
  /\ Tick.baseLoad 80 allMeasures <= Tick.baseLoad 80 noMeasures
  /\ Tick.value 80 allMeasures 0.5 <= Tick.value 80 noMeasures 0.5
  /\ unblockedTraffic 80 allMeasures <= unblockedTraffic 80 noMeasures.
Proof.
  split; [unfold intensity_ok; lia | ]. split; [cbv; lia | ].
  apply (X8_protection_lowers_sample 80 noMeasures allMeasures 0.5);
    [unfold intensity_ok; lia | cbv; lia].
Defined.

Lemma serverCapacity_mono (c c' : ServerConfig) :
  (cpu c <= cpu c')%Z -> (ram c <= ram c')%Z -> (bandwidth c <= bandwidth c')%Z ->
  Tick.serverCapacity c <= Tick.serverCapacity c'.
Proof.
  intros H1 H2 H3. rewrite Zle_Qle in H1, H2, H3.
  unfold Tick.serverCapacity, Qdiv.
  assert (H100 : / 100 == 0.01) by reflexivity.
  assert (H3' : / 3 == 1 # 3) by reflexivity.
  rewrite H100, H3'. lra.
Qed.

(** X9: a larger server never shows a higher load: for the same sample,
    raising cpu, ram or bandwidth (each at least 1) gives a server load
    at most the one before. *)
Theorem X9_resources_lower_load (c c' : ServerConfig) (v : Q) :
  (1 <= cpu c <= cpu c')%Z -> (1 <= ram c <= ram c')%Z ->
  (1 <= bandwidth c <= bandwidth c')%Z -> 0 <= v ->
  Tick.newServerLoad c' v <= Tick.newServerLoad c v.
Proof.
  intros [H1 H1'] [H2 H2'] [H3 H3'] Hv.
  pose proof (serverCapacity_pos c H1 H2 H3) as Hc.
  pose proof (serverCapacity_mono c c' H1' H2' H3') as Hm.
  assert (Hc' : 0 < Tick.serverCapacity c') by lra.
  unfold Tick.newServerLoad, Math_min. apply Q.min_le_compat_l.
  assert (Ht : 0 <= v / Tick.serverCapacity c)
    by (apply Qle_shift_div_l; [exact Hc | lra]).
  assert (Hnz : ~ Tick.serverCapacity c == 0)
    by (intros E; rewrite E in Hc; lra).
  assert (Hv' : v / Tick.serverCapacity c * Tick.serverCapacity c == v)
    by (field; exact Hnz).
  assert (v / Tick.serverCapacity c' <= v / Tick.serverCapacity c)
    by (apply Qle_shift_div_r; [exact Hc' | nra]).
  lra.
Qed.

Lemma X9_resources_lower_load_witness :
  (1 <= cpu defaultConfig <= cpu largeConfig)%Z
  /\ (1 <= ram defaultConfig <= ram largeConfig)%Z
  /\ (1 <= bandwidth defaultConfig <= bandwidth largeConfig)%Z
  /\ 0 <= 20
  /\ Tick.newServerLoad largeConfig 20 <= Tick.newServerLoad defaultConfig 20.
Proof.
  split; [simpl; lia | ]. split; [simpl; lia | ]. split; [simpl; lia | ].
  split; [lra | ].
  apply (X9_resources_lower_load defaultConfig largeConfig 20);
    simpl; try lia; lra.
Defined.

(** X10: the mitigation is bounded: whatever the measures, the base load
    stays between a quarter of the attack intensity and the intensity
    itself; and the malicious traffic is zero exactly when the intensity
    is zero or all five measures are enabled. *)
Theorem X10_mitigation_floor (a : Z) (s : SecurityMeasures) :
  intensity_ok a ->
  (inject_Z a / 4 <= Tick.baseLoad a s /\ Tick.baseLoad a s <= inject_Z a)
  /\ (unblockedTraffic a s == 0 <-> a = 0%Z \/ protectionLevel s = 5%nat).
Proof.
  intros Ha. apply intensity_nonneg in Ha. destruct Ha as [Ha _].
  assert (Hz : inject_Z a == 0 <-> a = 0%Z).
  { split; [intros H; apply (inject_Z_injective a 0); exact H
           | intros ->; reflexivity]. }
  unfold unblockedTraffic, Tick.blockedTraffic, Tick.totalTraffic, Tick.baseLoad.
  pose proof (protectionLevel_le_5 s) as H5.
  destruct (protectionLevel s) as [ | [ | [ | [ | [ | [ | n]]]]]]; try lia;
    cbv [of_nat Z.of_nat Pos.of_succ_nat Pos.succ];
    generalize dependent (inject_Z a); intros q Hq Hz; unfold inject_Z;
    change (q / 4) with (q * (1 # 4));
    (split; [split; lra | ]).
  all: split;
    [ intros H; try (left; apply Hz; lra); right; reflexivity
    | intros [H | H]; [apply Hz in H; lra | try discriminate H; lra] ].
Qed.

Lemma X10_mitigation_floor_witness :
  intensity_ok 100
  /\ (inject_Z 100 / 4 <= Tick.baseLoad 100 allMeasures
      /\ Tick.baseLoad 100 allMeasures <= inject_Z 100)
  /\ (unblockedTraffic 100 allMeasures == 0
      <-> 100%Z = 0%Z \/ protectionLevel allMeasures = 5%nat).
Proof.
  split; [unfold intensity_ok; lia | ].
  apply (X10_mitigation_floor 100 allMeasures). unfold intensity_ok; lia.
Defined.

(** ** The live analysis panel and the chart *)

Lemma Qgt_bool_true (a b : Q) : Qgt_bool a b = true <-> b < a.
Proof.
  unfold Qgt_bool. rewrite negb_true_iff.
  destruct (Qle_bool a b) eqn:E.
  - apply Qle_bool_iff in E. split; [discriminate | intros H; lra].
  - split; [intros _ | reflexivity].
    apply Qnot_le_lt. intros H. apply Qle_bool_iff in H. congruence.
Qed.




(** X12: the colour of the status line always matches its message: red
    with "Système saturé", yellow with "Charge élevée", green with
    "Système stable", for every value of the server load. *)
Theorem X12_status_colour_matches_message (serverLoad : Q) :
  (statusClass serverLoad = "text-red-500"%string
   <-> statusText serverLoad = "⚠️ Système saturé"%string)
  /\ (statusClass serverLoad = "text-yellow-500"%string
      <-> statusText serverLoad = "⚠️ Charge élevée"%string)
  /\ (statusClass serverLoad = "text-green-500"%string
      <-> statusText serverLoad = "✅ Système stable"%string).
Proof.
  unfold statusClass, statusText.
  destruct (Qgt_bool serverLoad 90); [ | destruct (Qgt_bool serverLoad 70)];
    repeat split; intros H; try reflexivity; discriminate H.
Qed.

(** X13: the panel lists one line per enabled measure, in the order of
    the record: their number is the protection level, and the protection
    percentage printed below them is twenty times that number. *)
Theorem X13_analysis_lines_count (security : SecurityMeasures) :
  length (analysisLines security) = protectionLevel security
  /\ protectionPercent security
     = (20 * Z.of_nat (length (analysisLines security)))%Z.
Proof.
  destruct security as [[] [] [] [] []]; split; vm_compute; reflexivity.
Qed.

(** X14: the chart never leaves its axis: in every reachable state it has
    one label per value, at most 31 of them, and every value lies between
    the axis minimum 0 and the axis maximum 100. *)
Theorem X14_chart_within_axis (s : App) :
  reachable s ->
  length (labels (chartData s)) = length (data (chartData s))
  /\ (length (data (chartData s)) <= 31)%nat
  /\ Forall (fun d => chartMin <= d /\ d <= chartMax) (data (chartData s)).
Proof.
  intros Hs. destruct (reachable_Inv s Hs) as [_ _ _ _ H5 H6 _ _ _].
  unfold chartData. cbn [labels data]. rewrite !length_map.
  split; [reflexivity | split; [exact H5 | ]].
  apply Forall_map. exact H6.
Qed.

Lemma X14_chart_within_axis_witness :
  reachable reconfigured
  /\ length (labels (chartData reconfigured))
     = length (data (chartData reconfigured))
  /\ (length (data (chartData reconfigured)) <= 31)%nat
  /\ Forall (fun d => chartMin <= d /\ d <= chartMax)
       (data (chartData reconfigured)).
Proof.
  split; [apply reachable_reconfigured | ].
  apply (X14_chart_within_axis reconfigured). apply reachable_reconfigured.
Defined.

Lemma toFixed0_nonneg (q : Q) : 0 <= q -> toFixed0 q = Qfloor (q + 0.5).
Proof.
  intros H. unfold toFixed0.
  apply Qle_bool_iff in H. rewrite H. reflexivity.
Qed.

(** X15: the capacity printed in the panel is capped: for every
    configuration in range it is a whole number between 4 and 100, and it
    reads 100 exactly when the server capacity is at least 99.5, although
    the tick divides by the uncapped capacity. *)
Theorem X15_capacity_display_capped (c : ServerConfig) :
  config_ok c ->
  (4 <= capacityPercent c <= 100)%Z
  /\ (capacityPercent c = 100%Z <-> 99.5 <= Tick.serverCapacity c).
Proof.
  intros ((H1 & H1') & (H2 & H2') & (H3 & H3') & _).
  pose proof (serverCapacity_pos c H1 H2 H3) as Hpos.
  assert (Hlow : 4 <= Tick.serverCapacity c).
  { pose proof (serverCapacity_mono minimalConfig c H1 H2 H3) as Hm.
    assert (4 <= Tick.serverCapacity minimalConfig) by (vm_compute; discriminate).
    lra. }
  unfold capacityPercent, Math_min.
  generalize dependent (Tick.serverCapacity c). intros cap Hpos Hlow.
  assert (Hm : 4 <= Qmin 100 cap /\ Qmin 100 cap <= 100).
  { split; [apply Q.min_glb; lra | apply Q.le_min_l]. }
  rewrite toFixed0_nonneg by lra.
  assert (Hlo : (4 <= Qfloor (Qmin 100 cap + 0.5))%Z).
  { apply Z.le_trans with (Qfloor 4); [vm_compute; discriminate | ].
    apply Qfloor_resp_le. lra. }
  assert (Hhi : (Qfloor (Qmin 100 cap + 0.5) <= 100)%Z).
  { apply Z.le_trans with (Qfloor 100.5); [ | vm_compute; discriminate].
    apply Qfloor_resp_le. lra. }
  split; [lia | ]. split; intros H.
  - pose proof (Qlt_floor (Qmin 100 cap + 0.5)) as Hf. rewrite H in Hf.
    change (inject_Z (100 + 1)) with 101 in Hf.
    pose proof (Qfloor_le (Qmin 100 cap + 0.5)) as Hg. rewrite H in Hg.
    change (inject_Z 100) with 100 in Hg.
    destruct (Q.min_spec 100 cap) as [[L E] | [L E]]; rewrite E in Hg; lra.
  - assert (Hge : (100 <= Qfloor (Qmin 100 cap + 0.5))%Z).
    { apply Z.le_trans with (Qfloor 100); [vm_compute; discriminate | ].
      apply Qfloor_resp_le.
      destruct (Q.min_spec 100 cap) as [[L E] | [L E]]; rewrite E; lra. }
    lia.
Qed.

Lemma X15_capacity_display_capped_witness :
  config_ok largeConfig
  /\ (4 <= capacityPercent largeConfig <= 100)%Z
  /\ (capacityPercent largeConfig = 100%Z
      <-> 99.5 <= Tick.serverCapacity largeConfig).
Proof.
  assert (H : config_ok largeConfig) by (unfold config_ok; simpl; lia).
  split; [exact H | ].
  apply (X15_capacity_display_capped largeConfig). exact H.
Defined.

(** ** The checkboxes *)

Lemma security_after_checkbox (s : App) (key : SecurityKey) (rnd : Stream) :
  security (step (SecurityCheckbox key) rnd s)
  = match key with
    | Kfail2ban =>
        mkSecurity (negb (fail2ban (security s))) (pfsense (security s))
          (cloudflare (security s)) (loadBalancer (security s)) (waf (security s))
    | Kpfsense =>
        mkSecurity (fail2ban (security s)) (negb (pfsense (security s)))
          (cloudflare (security s)) (loadBalancer (security s)) (waf (security s))
    | Kcloudflare =>
        mkSecurity (fail2ban (security s)) (pfsense (security s))
          (negb (cloudflare (security s))) (loadBalancer (security s))
          (waf (security s))
    | KloadBalancer =>
        mkSecurity (fail2ban (security s)) (pfsense (security s))
          (cloudflare (security s)) (negb (loadBalancer (security s)))
          (waf (security s))
    | Kwaf =>
        mkSecurity (fail2ban (security s)) (pfsense (security s))
          (cloudflare (security s)) (loadBalancer (security s))
          (negb (waf (security s)))
    end.
Proof.
  unfold step, handle, onChangeSecurity.
  match goal with |- security (run (runEffects true true ?t) rnd) = _ =>
    pose proof (f_equal security (forget_runEffects true true t rnd)) as E end.
  cbn [security forget set_frames] in E. rewrite E.
  unfold metricsEffect, metricsCleanup. cbn [isSimulating set_interval set_security].
  destruct (isSimulating s); destruct key; reflexivity.
Qed.

(** X16: a checkbox flips its own flag and no other, so that the
    protection level moves by exactly one, up when the measure was off and
    down when it was on; ticking the same checkbox twice restores the
    security measures. *)
Theorem X16_checkbox_moves_level_by_one (s : App) (key : SecurityKey)
    (rnd rnd' : Stream) :
  let s' := step (SecurityCheckbox key) rnd s in
  flag key (security s') = negb (flag key (security s))
  /\ (forall k, k <> key -> flag k (security s') = flag k (security s))
  /\ protectionLevel (security s')
     = (if flag key (security s)
        then protectionLevel (security s) - 1
        else protectionLevel (security s) + 1)%nat
  /\ security (step (SecurityCheckbox key) rnd' s') = security s.
Proof.
  cbv zeta. rewrite !security_after_checkbox.
  destruct (security s) as [f p c l w].
  split; [ | split; [ | split]].
  - destruct key; reflexivity.
  - intros k Hk. destruct key, k; try reflexivity; elim Hk; reflexivity.
  - destruct key, f, p, c, l, w; reflexivity.
  - destruct key; cbn; rewrite negb_involutive; reflexivity.
Qed.

(** ** The shape of the scheduled loops after an event *)

Lemma preserves_initParticles canvas security (n : nat) :
  preserves (initParticles canvas security n).
Proof.
  induction n as [ | n IH]; simpl; [auto with draws | ].
  apply preserves_bind; [apply preserves_resetParticle | intros p].
  apply preserves_bind; [exact IH | intros ps; auto with draws].
Qed.

Lemma initParticles_length canvas security (n : nat) (r : Stream) :
  length (fst (initParticles canvas security n r)) = n.
Proof.
  revert r. induction n as [ | n IH]; intros r; [reflexivity | ].
  simpl. unfold bind.
  destruct (resetParticle canvas security _ None r) as [p r1].
  specialize (IH r1). destruct (initParticles canvas security n r1) as [ps r2].
  simpl in *. congruence.
Qed.

Lemma initParticles_Forall canvas security (P : Particle -> Prop) :
  (forall particle r, draws_ok r ->
     P (fst (resetParticle canvas security particle None r))) ->
  forall n r, draws_ok r -> Forall P (fst (initParticles canvas security n r)).
Proof.
  intros HP. induction n as [ | n IH]; intros r Hr; [constructor | ].
  simpl. unfold bind.
  pose proof (HP (mkParticle 0 0 0 red attack) r Hr) as Hp.
  pose proof (preserves_resetParticle canvas security
                (mkParticle 0 0 0 red attack) None r Hr) as Hr1.
  destruct (resetParticle canvas security _ None r) as [p r1].
  specialize (IH r1 Hr1). destruct (initParticles canvas security n r1) as [ps r2].
  simpl in *. constructor; assumption.
Qed.

Lemma forEach_In {A : Type} (f : A -> Rnd A) (l : list A) (rnd : Stream) (a' : A) :
  (forall a, preserves (f a)) -> draws_ok rnd ->
  In a' (fst (forEach f l rnd)) ->
  exists a r, draws_ok r /\ In a l /\ a' = fst (f a r).
Proof.
  intros Hf Hr Hin. apply In_nth_error in Hin. destruct Hin as (j & Hj).
  destruct (forEach_nth f l Hf rnd j a' Hr Hj) as (a & r & Hr' & Ha & ->).
  exists a, r. split; [exact Hr' | split; [ | reflexivity]].
  apply nth_error_In in Ha. exact Ha.
Qed.

Lemma update_last_length {A : Type} (f : A -> A) (l : list A) :
  length (update_last f l) = length l.
Proof.
  induction l as [ | a l IH]; [reflexivity | ].
  destruct l as [ | b l]; [reflexivity | ].
  change (update_last f (a :: b :: l)) with (a :: update_last f (b :: l)).
  simpl in *. rewrite IH. reflexivity.
Qed.

Lemma update_last_Forall {A : Type} (f : A -> A) (P : A -> Prop) (l : list A) :
  (forall a, P a -> P (f a)) -> Forall P l -> Forall P (update_last f l).
Proof.
  intros Hf. induction 1 as [ | a l Ha Hl IH]; [constructor | ].
  destruct l as [ | b l]; [constructor; [apply Hf; exact Ha | constructor] | ].
  change (update_last f (a :: b :: l)) with (a :: update_last f (b :: l)).
  constructor; assumption.
Qed.

(** The animator effect appends one fresh loop when the simulation runs
    on a usable canvas, and nothing otherwise. *)
Lemma animatorEffect_shape (s : App) (rnd : Stream) :
  exists news,
    run (animatorEffect s) rnd
    = set_frames (frames s ++ news) (isSimulating s && usable s) s
    /\ (draws_ok rnd -> Forall fresh_loop news)
    /\ length news = (if isSimulating s && usable s then 1 else 0)%nat.
Proof.
  unfold animatorEffect, run, usable, bind, ret.
  destruct (isSimulating s); cbn [negb fst andb];
    [ | exists []; rewrite app_nil_r; auto].
  destruct (canvasRef s) as [canvas | ];
    [ | exists []; rewrite app_nil_r; cbn [fst]; auto].
  destruct (context2d canvas) eqn:Ex; cbn [negb fst];
    [ | exists []; rewrite app_nil_r; auto].
  destruct (initParticles canvas (security s) particleCount rnd)
    as [ps r1] eqn:E.
  destruct (animate (mkAnimLoop canvas (security s) ps) r1) as [l r2] eqn:E'.
  cbn [fst]. exists [l]. split; [reflexivity | split; [ | reflexivity]].
  intros Hr. constructor; [ | constructor].
  exists canvas, (security s), rnd.
  split; [exact Hr | split; [exact Ex | ]].
  rewrite E. cbn [fst snd]. rewrite E'. reflexivity.
Qed.

Lemma runEffects_shape (s0 : App) (rnd : Stream) :
  exists news,
    frames (run (runEffects true true s0) rnd)
    = (if animCleanup s0 then update_last emptied (frames s0) else frames s0)
      ++ news
    /\ animCleanup (run (runEffects true true s0) rnd)
       = isSimulating s0 && usable s0
    /\ (draws_ok rnd -> Forall fresh_loop news)
    /\ length news = (if isSimulating s0 && usable s0 then 1 else 0)%nat.
Proof.
  unfold runEffects.
  set (s3 := metricsEffect (animatorCleanup (metricsCleanup s0))).
  assert (H3 : frames s3
               = (if animCleanup s0 then update_last emptied (frames s0)
                  else frames s0)
               /\ isSimulating s3 = isSimulating s0 /\ usable s3 = usable s0).
  { subst s3. unfold metricsEffect, animatorCleanup, metricsCleanup, usable.
    destruct s0 as [cfg sec sim ai ms sl lt mt cref itv frs ac].
    cbn. destruct ac, sim; cbn; auto. }
  destruct H3 as (Hf & Hi & Hu).
  destruct (animatorEffect_shape s3 rnd) as (news & E & Hfresh & Hlen).
  exists news. rewrite E. cbn [frames animCleanup set_frames].
  rewrite Hf, Hi, Hu in *. auto.
Qed.

(** The loops after an event other than a frame: a slider or a tick
    leaves them alone; the button and a checkbox run the animator's
    cleanup and body. *)
Lemma step_frames_shape (s : App) (e : Event) (rnd : Stream) :
  e <> FrameFires ->
  (frames (step e rnd s) = frames s /\ animCleanup (step e rnd s) = animCleanup s
   /\ e <> Click /\ (forall key, e <> SecurityCheckbox key))
  \/ exists news after_running,
       frames (step e rnd s)
       = (if animCleanup s then update_last emptied (frames s) else frames s)
         ++ news
       /\ animCleanup (step e rnd s) = after_running && usable s
       /\ (draws_ok rnd -> Forall fresh_loop news)
       /\ length news = (if after_running && usable s then 1 else 0)%nat
       /\ after_running = (match e with
                           | Click => negb (isSimulating s)
                           | _ => isSimulating s
                           end)
       /\ (e = Click \/ exists key, e = SecurityCheckbox key).
Proof.
  intros He. destruct e as [ | key v | key | v | now | ]; try contradiction.
  - right. unfold step, handle, onClick, setIsSimulating.
    assert (Hne : Bool.eqb (negb (isSimulating s)) (isSimulating s) = false)
      by (destruct (isSimulating s); reflexivity).
    rewrite Hne.
    destruct (runEffects_shape (set_isSimulating (negb (isSimulating s)) s) rnd)
      as (news & Hf & Hc & Hfr & Hl).
    exists news, (negb (isSimulating s)). auto 10.
  - left. unfold step, handle, onChangeServerConfig.
    change (run (runEffects true false ?t) rnd)
      with (metricsEffect (metricsCleanup t)).
    match goal with |- context [metricsEffect ?t] =>
      destruct (frames_metricsEffect t) as (-> & -> & _) end.
    repeat split; intros; discriminate.
  - right. unfold step, handle, onChangeSecurity.
    match goal with |- context [runEffects true true ?t] =>
      destruct (runEffects_shape t rnd) as (news & Hf & Hc & Hfr & Hl) end.
    exists news, (isSimulating s). eauto 10.
  - left. unfold step, handle, onChangeAttackIntensity.
    destruct (v =? attackIntensity s)%Z;
      [repeat split; intros; discriminate | ].
    change (run (runEffects true false ?t) rnd)
      with (metricsEffect (metricsCleanup t)).
    match goal with |- context [metricsEffect ?t] =>
      destruct (frames_metricsEffect t) as (-> & -> & _) end.
    repeat split; intros; discriminate.
  - left. destruct (interval s) as [c | ] eqn:E.
    + rewrite (step_TimerFires c now rnd s E).
      repeat split; intros; discriminate.
    + rewrite (step_TimerFires_idle now rnd s E).
      repeat split; intros; discriminate.
Qed.

Lemma frames_after_frame (s : App) (rnd : Stream) :
  frames (step FrameFires rnd s) = fst (forEach animate (frames s) rnd)
  /\ animCleanup (step FrameFires rnd s) = animCleanup s.
Proof.
  unfold step, handle, onAnimationFrame, run, bind, ret.
  destruct (forEach animate (frames s) rnd) as [fs r]. split; reflexivity.
Qed.

(** A property of loops that the cleanup and [animate] keep and that
    every fresh loop has holds of all the loops of a reachable state. *)
Lemma loops_invariant (P : AnimLoop -> Prop) :
  (forall l, P l -> P (emptied l)) ->
  (forall l r, draws_ok r -> P l -> P (fst (animate l r))) ->
  (forall l, fresh_loop l -> P l) ->
  forall s, reachable s -> Forall P (frames s).
Proof.
  intros Hemp Hani Hfresh. induction 1 as [c | s e rnd Hs IH He Hr].
  - constructor.
  - assert (Hdec : e = FrameFires \/ e <> FrameFires)
      by (destruct e; (left; reflexivity) || (right; discriminate)).
    destruct Hdec as [-> | Hne].
    + destruct (frames_after_frame s rnd) as (-> & _).
      apply Forall_forall. intros l' Hin.
      destruct (forEach_In animate (frames s) rnd l' preserves_animate Hr Hin)
        as (l & r & Hr' & Hl & ->).
      apply Hani; [exact Hr' | ]. rewrite Forall_forall in IH. apply IH, Hl.
    + destruct (step_frames_shape s e rnd Hne)
        as [(-> & _) | (news & b & -> & _ & Hf & _)]; [exact IH | ].
      apply Forall_app. split.
      * destruct (animCleanup s); [ | exact IH].
        apply update_last_Forall; assumption.
      * eapply Forall_impl; [ | apply Hf; exact Hr]. exact Hfresh.
Qed.

(** ** Particles stay on the canvas *)

Lemma resetParticle_ok canvas security particle (r : Stream) :
  draws_ok r -> (0 <= width canvas)%Z -> (0 <= height canvas)%Z ->
  particle_ok canvas (fst (resetParticle canvas security particle None r)).
Proof.
  intros Hr Hw Hh.
  destruct (resetParticle_rule canvas security particle r Hr)
    as (Hx & Hy & Hyr & (Hb1 & Hb2) & Hleg & H4 & H2 & H0).
  assert (Hb3 : 2 + r 1%nat * 3 < 5) by (destruct (Hr 1%nat); lra).
  set (p := fst (resetParticle canvas security particle None r)) in *.
  rewrite Zle_Qle in Hw. change (inject_Z 0) with 0 in Hw.
  unfold particle_ok. rewrite Hx.
  split; [split; lra | split; [exact (Hyr Hh) | ]].
  destruct (type p) eqn:Et.
  - destruct (Nat.le_gt_cases 4 (protectionLevel security)) as [L4 | L4];
      [ | destruct (Nat.le_gt_cases 2 (protectionLevel security)) as [L2 | L2]].
    + destruct (H4 eq_refl L4) as (-> & ->). left. repeat split; lra.
    + destruct (H2 eq_refl (conj L2 L4)) as (-> & ->). right. repeat split; lra.
    + destruct (H0 eq_refl L2) as (-> & ->). left. repeat split; lra.
  - destruct (Hleg eq_refl) as (-> & ->). repeat split; lra.
Qed.

Lemma advance_ok canvas security particle (r : Stream) :
  draws_ok r -> (0 <= width canvas)%Z -> (0 <= height canvas)%Z ->
  particle_ok canvas particle ->
  particle_ok canvas (fst (advance canvas security particle r)).
Proof.
  intros Hr Hw Hh Hp. unfold advance. cbn [x y speed color type].
  destruct (Qgt_bool (x particle + speed particle) (inject_Z (width canvas)))
    eqn:E.
  - apply resetParticle_ok; assumption.
  - cbn [fst ret]. destruct Hp as ((Hx0 & Hx1) & Hy & Hk).
    assert (Hle : x particle + speed particle <= inject_Z (width canvas)).
    { unfold Qgt_bool in E. apply negb_false_iff in E.
      apply Qle_bool_iff in E. exact E. }
    unfold particle_ok. cbn [x y speed color type].
    split; [split; [ | exact Hle] | split; [exact Hy | exact Hk]].
    destruct (type particle);
      [destruct Hk as [(_ & ? & _) | (_ & ? & _)] | destruct Hk as (_ & ? & _)];
      lra.
Qed.

Lemma reachable_particles_ok (s : App) (l : AnimLoop) (p : Particle) :
  reachable s -> In l (frames s) -> In p (particles l) ->
  (0 <= width (loopCanvas l))%Z -> (0 <= height (loopCanvas l))%Z ->
  particle_ok (loopCanvas l) p.
Proof.
  intros Hs Hl Hp Hw Hh.
  pose proof (loops_invariant
    (fun l => (0 <= width (loopCanvas l))%Z -> (0 <= height (loopCanvas l))%Z ->
              Forall (particle_ok (loopCanvas l)) (particles l))) as H.
  assert (HP : Forall (fun l => (0 <= width (loopCanvas l))%Z ->
                         (0 <= height (loopCanvas l))%Z ->
                         Forall (particle_ok (loopCanvas l)) (particles l))
                 (frames s)).
  { apply H; [ | | | exact Hs]; clear.
    - intros l _ _ _. constructor.
    - intros l r Hr Hl Hw Hh.
      assert (Hc : loopCanvas (fst (animate l r)) = loopCanvas l).
      { unfold animate, bind, ret. destruct (forEach _ _ r). reflexivity. }
      rewrite Hc in *. specialize (Hl Hw Hh).
      apply Forall_forall. intros p' Hin.
      unfold animate, bind, ret in Hin.
      destruct (forEach (advance (loopCanvas l) (loopSecurity l)) (particles l) r)
        as [ps r2] eqn:E.
      cbn [fst particles] in Hin.
      replace ps with
        (fst (forEach (advance (loopCanvas l) (loopSecurity l)) (particles l) r))
        in Hin by (rewrite E; reflexivity).
      destruct (forEach_In _ _ _ _
                  (preserves_advance (loopCanvas l) (loopSecurity l)) Hr Hin)
        as (p & r' & Hr' & Hp & ->).
      apply advance_ok; try assumption.
      rewrite Forall_forall in Hl. apply Hl, Hp.
    - intros l (canvas & sec & r & Hr & _ & ->) Hw Hh.
      assert (Hc : loopCanvas
                     (fst (animate
                        (mkAnimLoop canvas sec
                           (fst (initParticles canvas sec particleCount r)))
                        (snd (initParticles canvas sec particleCount r))))
                   = canvas).
      { unfold animate, bind, ret. cbn [loopCanvas loopSecurity particles].
        destruct (forEach _ _ _). reflexivity. }
      rewrite Hc in *.
      pose proof (initParticles_Forall canvas sec (particle_ok canvas)
                    (fun particle r0 Hr0 =>
                       resetParticle_ok canvas sec particle r0 Hr0 Hw Hh)
                    particleCount r Hr) as Hinit.
      pose proof (preserves_initParticles canvas sec particleCount r Hr) as Hr1.
      apply Forall_forall. intros p' Hin.
      unfold animate, bind, ret in Hin.
      cbn [loopCanvas loopSecurity particles] in Hin.
      destruct (forEach (advance canvas sec)
                  (fst (initParticles canvas sec particleCount r))
                  (snd (initParticles canvas sec particleCount r)))
        as [ps r2] eqn:E.
      cbn [fst particles] in Hin.
      replace ps with
        (fst (forEach (advance canvas sec)
                (fst (initParticles canvas sec particleCount r))
                (snd (initParticles canvas sec particleCount r))))
        in Hin by (rewrite E; reflexivity).
      destruct (forEach_In _ _ _ _ (preserves_advance canvas sec) Hr1 Hin)
        as (p & r' & Hr' & Hp & ->).
      apply advance_ok; try assumption.
      rewrite Forall_forall in Hinit. apply Hinit, Hp. }
  rewrite Forall_forall in HP. specialize (HP l Hl Hw Hh).
  rewrite Forall_forall in HP. apply HP, Hp.
Qed.

Lemma frames_flying : frames flying = [flyingLoop].
Proof.
  vm_compute. reflexivity.
Qed.

Lemma In_flyingLoop : In flyingLoop (frames flying).
Proof.
  rewrite frames_flying. left. reflexivity.
Qed.

(** X17: every particle of every scheduled loop is on its canvas and
    consistent, in every reachable state (for a canvas of non-negative
    width and height): 0 <= x <= width and 0 <= y <= height; a legitimate
    particle is green with a speed in [2,5]; an attack is red with a speed
    in [0.5,5] or yellow with a speed in [1,3].  In particular no
    particle ever stands still. *)
Theorem X17_particles_stay_on_canvas (s : App) (l : AnimLoop) (p : Particle) :
  reachable s -> In l (frames s) -> In p (particles l) ->
  (0 <= width (loopCanvas l))%Z -> (0 <= height (loopCanvas l))%Z ->
  particle_ok (loopCanvas l) p.
Proof.
  intros Hs Hl Hp Hw Hh. apply (reachable_particles_ok s); assumption.
Qed.

Lemma X17_particles_stay_on_canvas_witness :
  reachable flying /\ In flyingLoop (frames flying)
  /\ In flyingParticle (particles flyingLoop)
  /\ (0 <= width (loopCanvas flyingLoop))%Z
  /\ (0 <= height (loopCanvas flyingLoop))%Z
  /\ particle_ok (loopCanvas flyingLoop) flyingParticle.
Proof.
  assert (Hp : In flyingParticle (particles flyingLoop))
    by (left; reflexivity).
  assert (Hw : (0 <= width (loopCanvas flyingLoop))%Z)
    by (vm_compute; discriminate).
  assert (Hh : (0 <= height (loopCanvas flyingLoop))%Z)
    by (vm_compute; discriminate).
  split; [apply reachable_flying | ]. split; [apply In_flyingLoop | ].
  split; [exact Hp | ]. split; [exact Hw | ]. split; [exact Hh | ].
  exact (X17_particles_stay_on_canvas flying flyingLoop flyingParticle
           reachable_flying In_flyingLoop Hp Hw Hh).
Defined.

(** ** The pool and the number of scheduled loops *)

Lemma fresh_loop_length (l : AnimLoop) :
  fresh_loop l -> length (particles l) = particleCount.
Proof.
  intros (canvas & sec & r & _ & _ & ->).
  rewrite animate_length. cbn [particles]. apply initParticles_length.
Qed.

Lemma forEach_snoc {A : Type} (f : A -> Rnd A) (l : list A) (a : A) (rnd : Stream) :
  fst (forEach f (l ++ [a]) rnd)
  = fst (forEach f l rnd) ++ [fst (f a (snd (forEach f l rnd)))].
Proof.
  revert rnd. induction l as [ | b l IH]; intros rnd.
  - simpl. unfold bind, ret. destruct (f a rnd). reflexivity.
  - simpl. unfold bind. destruct (f b rnd) as [b' r1].
    specialize (IH r1).
    destruct (forEach f (l ++ [a]) r1) as [l1 r2].
    destruct (forEach f l r1) as [l2 r3].
    cbn [fst snd ret] in *. rewrite IH. reflexivity.
Qed.

Lemma PoolInv_step (s : App) (e : Event) (rnd : Stream) :
  draws_ok rnd -> PoolInv s -> PoolInv (step e rnd s).
Proof.
  intros Hr Hs.
  assert (Hdec : e = FrameFires \/ e <> FrameFires)
    by (destruct e; (left; reflexivity) || (right; discriminate)).
  destruct Hdec as [-> | Hne].
  - destruct (frames_after_frame s rnd) as (Hf & Hc).
    intros H. rewrite Hc in H. destruct (Hs H) as (olds & l & E & Hl).
    rewrite Hf, E, forEach_snoc. eexists. eexists.
    split; [reflexivity | ]. rewrite animate_length. exact Hl.
  - destruct (step_frames_shape s e rnd Hne)
      as [(Hf & Hc & _) | (news & b & Hf & Hc & Hfr & Hlen & _)].
    + intros H. rewrite Hc in H. rewrite Hf. apply Hs, H.
    + intros H. rewrite Hc in H. rewrite H in Hlen.
      destruct news as [ | l [ | l' news]]; try discriminate Hlen.
      rewrite Hf. eexists. exists l. split; [reflexivity | ].
      apply fresh_loop_length.
      specialize (Hfr Hr). inversion Hfr; assumption.
Qed.

Lemma reachable_PoolInv (s : App) : reachable s -> PoolInv s.
Proof.
  induction 1 as [c | s e rnd _ IH _ Hr].
  - intros H. discriminate H.
  - apply PoolInv_step; assumption.
Qed.

(** X18: the pool has exactly 100 particles.  In every reachable state a
    scheduled loop holds either no particle or 100; while the simulation
    runs on a usable canvas the last loop holds 100 and all the others
    none; while it is idle no loop holds any. *)
Theorem X18_pool_of_one_hundred (s : App) :
  reachable s ->
  (forall l, In l (frames s) ->
     particles l = [] \/ length (particles l) = 100%nat)
  /\ (Running s -> usable s = true ->
      exists olds l,
        frames s = olds ++ [l]
        /\ Forall (fun o => particles o = []) olds
        /\ length (particles l) = 100%nat)
  /\ (Idle s -> Forall (fun o => particles o = []) (frames s)).
Proof.
  intros Hs.
  pose proof (reachable_CleanupInv s Hs) as Hc. unfold CleanupInv in Hc.
  destruct (reachable_FramesInv s Hs) as (olds & Ho & Hf).
  split; [ | split].
  - assert (H : Forall (fun l => particles l = []
                                 \/ length (particles l) = particleCount)
                  (frames s)).
    { apply loops_invariant; [ | | | exact Hs]; clear.
      - intros l _. left. reflexivity.
      - intros l r _ [H | H].
        + left. rewrite (animate_discarded l r H). exact H.
        + right. rewrite animate_length. exact H.
      - intros l Hl. right. apply fresh_loop_length. exact Hl. }
    rewrite Forall_forall in H. exact H.
  - intros Hrun Hu. rewrite Hrun, Hu in Hc. rewrite Hc in Hf.
    destruct Hf as (l & E & _).
    destruct (reachable_PoolInv s Hs Hc) as (olds' & l' & E' & Hl).
    rewrite E in E'. apply app_inj_tail in E'. destruct E' as (_ & <-).
    exists olds, l. auto.
  - intros Hi. rewrite Hi in Hc. rewrite Hc in Hf. rewrite Hf. exact Ho.
Qed.

Lemma X18_pool_of_one_hundred_witness :
  reachable reconfigured
  /\ (Running reconfigured -> usable reconfigured = true ->
      exists olds l,
        frames reconfigured = olds ++ [l]
        /\ Forall (fun o => particles o = []) olds
        /\ length (particles l) = 100%nat).
Proof.
  split; [apply reachable_reconfigured | ].
  destruct (X18_pool_of_one_hundred reconfigured reachable_reconfigured)
    as (_ & H & _).
  exact H.
Defined.

Lemma frames_length_step (s : App) (e : Event) (rnd : Stream) :
  length (frames (step e rnd s))
  = (length (frames s)
     + match e with
       | Click => if negb (isSimulating s) && usable s then 1 else 0
       | SecurityCheckbox _ => if isSimulating s && usable s then 1 else 0
       | _ => 0
       end)%nat.
Proof.
  assert (Hdec : e = FrameFires \/ e <> FrameFires)
    by (destruct e; (left; reflexivity) || (right; discriminate)).
  destruct Hdec as [-> | Hne].
  - destruct (frames_after_frame s rnd) as (-> & _).
    rewrite forEach_length. lia.
  - destruct (step_frames_shape s e rnd Hne)
      as [(-> & _ & Hc & Hk) | (news & b & -> & _ & _ & Hlen & -> & He)].
    + destruct e; try lia; [elim Hc; reflexivity | elim (Hk key); reflexivity].
    + rewrite length_app, Hlen.
      assert (Hb : length (if animCleanup s
                           then update_last emptied (frames s) else frames s)
                   = length (frames s))
        by (destruct (animCleanup s);
            [apply update_last_length | reflexivity]).
      rewrite Hb. destruct He as [-> | (key & ->)]; reflexivity.
Qed.

(** X19: scheduled loops only accumulate.  An event never removes a
    scheduled [animate] callback; the button adds one when it starts the
    simulation on a usable canvas, a security checkbox adds one when the
    simulation is running on a usable canvas, and no other event changes
    their number. *)
Theorem X19_scheduled_loops_accumulate (s : App) (e : Event) (rnd : Stream) :
  length (frames (step e rnd s))
  = (length (frames s)
     + match e with
       | Click => if negb (isSimulating s) && usable s then 1 else 0
       | SecurityCheckbox _ => if isSimulating s && usable s then 1 else 0
       | _ => 0
       end)%nat.
Proof.
  apply frames_length_step.
Qed.

(** ** What a display refresh draws *)

Lemma drawLoop_discarded (l : AnimLoop) :
  particles l = [] -> drawLoop l = [fade (loopCanvas l)].
Proof.
  intros H. unfold drawLoop. rewrite H. reflexivity.
Qed.

(** X20: after a stop the screen keeps being repainted: in an idle
    reachable state every display refresh draws one translucent rectangle
    over the whole canvas for each loop ever scheduled, and nothing
    else. *)
Theorem X20_idle_refresh_draws_fades_only (s : App) :
  reachable s -> Idle s ->
  drawFrame s = map (fun l => fade (loopCanvas l)) (frames s).
Proof.
  intros Hs Hi.
  pose proof (reachable_CleanupInv s Hs) as Hc. unfold CleanupInv in Hc.
  destruct (reachable_FramesInv s Hs) as (olds & Ho & Hf).
  rewrite Hi in Hc. rewrite Hc in Hf. unfold drawFrame. rewrite Hf.
  clear Hf. induction Ho as [ | l olds Hl _ IH]; [reflexivity | ].
  cbn [flat_map map]. rewrite (drawLoop_discarded l Hl), IH. reflexivity.
Qed.

Lemma X20_idle_refresh_draws_fades_only_witness :
  reachable halted /\ Idle halted
  /\ drawFrame halted = map (fun l => fade (loopCanvas l)) (frames halted).
Proof.
  split; [apply reachable_halted | ]. split; [reflexivity | ].
  apply (X20_idle_refresh_draws_fades_only halted);
    [apply reachable_halted | reflexivity].
Defined.

(** X21: nothing is drawn off the canvas.  For every scheduled loop of a
    reachable state (on a canvas of non-negative width and height), each
    command of its next [animate] call is in place: the fading rectangle
    covers exactly the canvas; a disc is centred on the canvas, green
    with radius 3 or red or yellow with radius 2; a connecting line
    starts on the canvas, in its last fifth, and ends at the middle of
    the right edge. *)
Theorem X21_drawing_on_canvas (s : App) (l : AnimLoop) (cmd : DrawCmd) :
  reachable s -> In l (frames s) ->
  (0 <= width (loopCanvas l))%Z -> (0 <= height (loopCanvas l))%Z ->
  In cmd (drawLoop l) -> cmd_on_canvas (loopCanvas l) cmd.
Proof.
  intros Hs Hl Hw Hh Hin.
  assert (Hok : forall p, In p (particles l) -> particle_ok (loopCanvas l) p)
    by (intros p Hp; apply (reachable_particles_ok s); assumption).
  unfold drawLoop in Hin. destruct Hin as [<- | Hin].
  - cbn. auto.
  - apply in_app_or in Hin. destruct Hin as [Hin | Hin].
    + unfold drawLines in Hin. apply in_flat_map in Hin.
      destruct Hin as (p & Hp & Hc).
      destruct (Hok p Hp) as ((Hx0 & Hx1) & Hy & Hk).
      destruct (type p); [destruct Hc | ].
      destruct (Qgt_bool (x p) (inject_Z (width (loopCanvas l)) * 0.8)) eqn:E;
        [ | destruct Hc].
      destruct Hc as [<- | []]. apply Qgt_bool_true in E.
      cbn. auto 10.
    + unfold drawDiscs in Hin. apply in_map_iff in Hin.
      destruct Hin as (p & <- & Hp).
      destruct (Hok p Hp) as (Hx & Hy & Hk).
      cbn. split; [exact Hx | split; [exact Hy | ]].
      destruct (type p).
      * right. destruct Hk as [(-> & _) | (-> & _)]; auto.
      * left. destruct Hk as (-> & _). auto.
Qed.

Lemma X21_drawing_on_canvas_witness :
  reachable flying /\ In flyingLoop (frames flying)
  /\ (0 <= width (loopCanvas flyingLoop))%Z
  /\ (0 <= height (loopCanvas flyingLoop))%Z
  /\ In (Disc red 400 0 2) (drawLoop flyingLoop)
  /\ cmd_on_canvas (loopCanvas flyingLoop) (Disc red 400 0 2).
Proof.
  assert (Hw : (0 <= width (loopCanvas flyingLoop))%Z)
    by (vm_compute; discriminate).
  assert (Hh : (0 <= height (loopCanvas flyingLoop))%Z)
    by (vm_compute; discriminate).
  assert (Hin : In (Disc red 400 0 2) (drawLoop flyingLoop))
    by (right; left; reflexivity).
  split; [apply reachable_flying | ]. split; [apply In_flyingLoop | ].
  split; [exact Hw | ]. split; [exact Hh | ]. split; [exact Hin | ].
  exact (X21_drawing_on_canvas flying flyingLoop (Disc red 400 0 2)
           reachable_flying In_flyingLoop Hw Hh Hin).
Defined.

(** ** A page without a usable canvas *)

Lemma usable_step (s : App) (e : Event) (rnd : Stream) :
  usable (step e rnd s) = usable s.
Proof.
  unfold usable.
  assert (H : canvasRef (step e rnd s) = canvasRef s); [ | rewrite H; reflexivity].
  destruct e as [ | key v | key | v | now | ].
  - unfold step, handle, onClick, setIsSimulating.
    destruct (Bool.eqb (negb (isSimulating s)) (isSimulating s));
      [reflexivity | ].
    match goal with |- canvasRef (run (runEffects ?m ?a ?t) rnd) = _ =>
      pose proof (f_equal canvasRef (forget_runEffects m a t rnd)) as E end.
    cbn [canvasRef forget set_frames] in E. rewrite E.
    unfold metricsEffect, metricsCleanup.
    cbn [isSimulating set_interval set_isSimulating].
    destruct (negb (negb (isSimulating s))); reflexivity.
  - unfold step, handle, onChangeServerConfig.
    match goal with |- canvasRef (run (runEffects ?m ?a ?t) rnd) = _ =>
      pose proof (f_equal canvasRef (forget_runEffects m a t rnd)) as E end.
    cbn [canvasRef forget set_frames] in E. rewrite E.
    unfold metricsEffect, metricsCleanup.
    cbn [isSimulating set_interval set_serverConfig].
    destruct (negb (isSimulating s)); reflexivity.
  - unfold step, handle, onChangeSecurity.
    match goal with |- canvasRef (run (runEffects ?m ?a ?t) rnd) = _ =>
      pose proof (f_equal canvasRef (forget_runEffects m a t rnd)) as E end.
    cbn [canvasRef forget set_frames] in E. rewrite E.
    unfold metricsEffect, metricsCleanup.
    cbn [isSimulating set_interval set_security].
    destruct (negb (isSimulating s)); reflexivity.
  - unfold step, handle, onChangeAttackIntensity.
    destruct (v =? attackIntensity s)%Z; [reflexivity | ].
    match goal with |- canvasRef (run (runEffects ?m ?a ?t) rnd) = _ =>
      pose proof (f_equal canvasRef (forget_runEffects m a t rnd)) as E end.
    cbn [canvasRef forget set_frames] in E. rewrite E.
    unfold metricsEffect, metricsCleanup.
    cbn [isSimulating set_interval set_attackIntensity].
    destruct (negb (isSimulating s)); reflexivity.
  - destruct (interval s) as [c | ] eqn:E.
    + rewrite (step_TimerFires c now rnd s E). reflexivity.
    + rewrite (step_TimerFires_idle now rnd s E). reflexivity.
  - pose proof (f_equal canvasRef (forget_onAnimationFrame s rnd)) as E.
    exact E.
Qed.

(** X25: without a usable canvas the animator never starts: when the
    canvas is missing or gives no 2D context, no [animate] callback is
    ever scheduled, whatever the user does. *)
Theorem X25_no_canvas_no_animation (s : App) :
  reachable s -> usable s = false -> frames s = [].
Proof.
  induction 1 as [c | s e rnd Hs IH He Hr]; [reflexivity | ].
  rewrite usable_step. intros Hu. specialize (IH Hu).
  assert (Hdec : e = FrameFires \/ e <> FrameFires)
    by (destruct e; (left; reflexivity) || (right; discriminate)).
  destruct Hdec as [-> | Hne].
  - destruct (frames_after_frame s rnd) as (-> & _). rewrite IH. reflexivity.
  - destruct (step_frames_shape s e rnd Hne)
      as [(-> & _) | (news & b & -> & _ & _ & Hlen & _)]; [exact IH | ].
    rewrite Hu, andb_false_r in Hlen.
    destruct news; [ | discriminate Hlen].
    rewrite IH. destruct (animCleanup s); reflexivity.
Qed.

Lemma X25_no_canvas_no_animation_witness :
  reachable blind /\ usable blind = false /\ frames blind = [].
Proof.
  assert (H : reachable blind).
  { apply reachable_runEvents;
      [repeat constructor | apply half_ok | apply reach_init]. }
  split; [exact H | ]. split; [reflexivity | ].
  apply (X25_no_canvas_no_animation blind H). reflexivity.
Defined.

(** ** Start, stop and the loops left behind *)

Lemma isSimulating_Click (s : App) (rnd : Stream) :
  isSimulating (step Click rnd s) = negb (isSimulating s).
Proof.
  unfold step, handle, onClick, setIsSimulating.
  assert (Hne : Bool.eqb (negb (isSimulating s)) (isSimulating s) = false)
    by (destruct (isSimulating s); reflexivity).
  rewrite Hne.
  pose proof (f_equal isSimulating
                (forget_runEffects true true
                   (set_isSimulating (negb (isSimulating s)) s) rnd)) as E.
  cbn [isSimulating forget set_frames] in E. rewrite E.
  unfold metricsEffect, metricsCleanup.
  cbn [isSimulating set_interval set_isSimulating].
  destruct (isSimulating s); reflexivity.
Qed.

(** X26: every start-and-stop cycle leaves one more callback behind: from
    an idle state on a usable canvas, pressing the button 2n times leaves
    the simulation idle with n more [animate] callbacks scheduled than
    before. *)
Theorem X26_each_cycle_leaks_a_loop (s : App) (n : nat) (rnd : Stream) :
  Idle s -> usable s = true ->
  Idle (runEvents (cycles n) rnd s)
  /\ length (frames (runEvents (cycles n) rnd s))
     = (length (frames s) + n)%nat.
Proof.
  unfold cycles. generalize 0%nat as k. revert s.
  induction n as [ | n IH]; intros s k Hi Hu.
  - simpl. split; [exact Hi | lia].
  - cbn [seq flat_map app runEvents].
    set (s1 := step Click rnd s). set (s2 := step Click rnd s1).
    assert (H1 : isSimulating s1 = true)
      by (unfold s1; rewrite isSimulating_Click, Hi; reflexivity).
    assert (H2 : Idle s2)
      by (unfold Idle, s2; rewrite isSimulating_Click, H1; reflexivity).
    assert (U1 : usable s1 = true) by (unfold s1; rewrite usable_step; exact Hu).
    assert (U2 : usable s2 = true) by (unfold s2; rewrite usable_step; exact U1).
    assert (L1 : length (frames s1) = (length (frames s) + 1)%nat)
      by (unfold s1; rewrite frames_length_step, Hi, Hu; reflexivity).
    assert (L2 : length (frames s2) = length (frames s1))
      by (unfold s2; rewrite frames_length_step, H1; cbn; lia).
    destruct (IH s2 (S k) H2 U2) as (Hidle & Hlen).
    split; [exact Hidle | ]. rewrite Hlen. lia.
Qed.

Lemma X26_each_cycle_leaks_a_loop_witness :
  Idle (init (Some theCanvas)) /\ usable (init (Some theCanvas)) = true
  /\ Idle (runEvents (cycles 3) half (init (Some theCanvas)))
  /\ length (frames (runEvents (cycles 3) half (init (Some theCanvas))))
     = (length (frames (init (Some theCanvas))) + 3)%nat.
Proof.
  split; [reflexivity | ]. split; [reflexivity | ].
  apply (X26_each_cycle_leaks_a_loop (init (Some theCanvas)) 3 half);
    reflexivity.
Defined.

(** X27: a checkbox restarts the animation: ticked while the simulation
    runs on a usable canvas, it leaves every loop scheduled before without
    particles and adds one loop, which holds 100 particles and was created
    under the new security measures. *)
Theorem X27_checkbox_rebuilds_pool (s : App) (key : SecurityKey) (rnd : Stream) :
  reachable s -> draws_ok rnd -> Running s -> usable s = true ->
  let s' := step (SecurityCheckbox key) rnd s in
  exists olds l,
    frames s' = olds ++ [l]
    /\ length olds = length (frames s)
    /\ Forall (fun o => particles o = []) olds
    /\ length (particles l) = 100%nat
    /\ loopSecurity l = security s'.
Proof.
  intros Hs Hr Hrun Hu. cbv zeta.
  assert (Hs' : reachable (step (SecurityCheckbox key) rnd s))
    by (apply reach_step; [exact Hs | exact I | exact Hr]).
  pose proof (frames_length_step s (SecurityCheckbox key) rnd) as Hlen.
  rewrite Hrun, Hu in Hlen. cbn [andb] in Hlen.
  pose proof (reachable_CleanupInv _ Hs') as Hc. unfold CleanupInv in Hc.
  rewrite usable_step, Hu, andb_true_r in Hc.
  destruct (reachable_FramesInv _ Hs') as (olds & Ho & Hf).
  destruct (animCleanup (step (SecurityCheckbox key) rnd s)) eqn:Ec.
  - destruct Hf as (l & E & Hsec).
    destruct (reachable_PoolInv _ Hs' Ec) as (olds' & l' & E' & Hl).
    rewrite E in E'. apply app_inj_tail in E'. destruct E' as (_ & <-).
    exists olds, l. rewrite E, length_app in Hlen. cbn in Hlen.
    repeat split; try assumption. lia.
  - exfalso. rewrite Hf in Hlen.
    destruct (step_frames_shape s (SecurityCheckbox key) rnd)
      as [(_ & _ & _ & Hk) | (news & b & _ & Hc' & _ & _ & Hb & _)];
      [discriminate | elim (Hk key); reflexivity | ].
    rewrite Ec, Hb, Hrun, Hu in Hc'. discriminate Hc'.
Qed.

Lemma X27_checkbox_rebuilds_pool_witness :
  reachable reconfigured /\ draws_ok half /\ Running reconfigured
  /\ usable reconfigured = true
  /\ exists olds l,
       frames (step (SecurityCheckbox Kfail2ban) half reconfigured) = olds ++ [l]
       /\ length olds = length (frames reconfigured)
       /\ Forall (fun o => particles o = []) olds
       /\ length (particles l) = 100%nat
       /\ loopSecurity l
          = security (step (SecurityCheckbox Kfail2ban) half reconfigured).
Proof.
  split; [apply reachable_reconfigured | ]. split; [apply half_ok | ].
  split; [reflexivity | ]. split; [reflexivity | ].
  apply (X27_checkbox_rebuilds_pool reconfigured Kfail2ban half);
    [apply reachable_reconfigured | apply half_ok | reflexivity | reflexivity].
Defined.

(** ** The sample and the base load *)

(** X22: the recorded sample stays within the jitter of the base load:
    for an attack intensity in [0,100] and a draw in [0,1), the sample is
    at least the base load minus 10 and at most the base load plus 10,
    the clamp notwithstanding. *)
Theorem X22_sample_within_jitter (a : Z) (s : SecurityMeasures) (r : Q) :
  intensity_ok a -> 0 <= r -> r < 1 ->
  Tick.baseLoad a s - 10 <= Tick.value a s r
  /\ Tick.value a s r <= Tick.baseLoad a s + 10.
Proof.
  intros Ha Hr0 Hr1.
  assert (Hb : 0 <= Tick.baseLoad a s /\ Tick.baseLoad a s <= 100).
  { apply intensity_nonneg in Ha. destruct Ha as [Ha0 Ha1].
    destruct (of_nat_level_range s) as [Hl0 Hl5].
    unfold Tick.baseLoad. split; nra. }
  unfold Tick.value, Tick.randomVariation, Math_max, Math_min.
  generalize dependent (Tick.baseLoad a s). intros b Hb.
  destruct (Q.min_spec 100 (b + (r * 20 - 10))) as [[L E] | [L E]];
    destruct (Q.max_spec 0 (Qmin 100 (b + (r * 20 - 10)))) as [[L' E'] | [L' E']];
    rewrite E'; rewrite ?E in *; split; lra.
Qed.

Lemma X22_sample_within_jitter_witness :
  intensity_ok 50 /\ 0 <= 0.25 /\ 0.25 < 1
  /\ Tick.baseLoad 50 noMeasures - 10 <= Tick.value 50 noMeasures 0.25
  /\ Tick.value 50 noMeasures 0.25 <= Tick.baseLoad 50 noMeasures + 10.
Proof.
  split; [unfold intensity_ok; lia | ]. split; [lra | ]. split; [lra | ].
  apply (X22_sample_within_jitter 50 noMeasures 0.25);
    [unfold intensity_ok; lia | lra | lra].
Defined.

(** ** Particles across a change of the security measures *)

Lemma reset_kind_rule canvas (level : nat) (ry rs : Q) (p : Particle) :
  reset_rule canvas level ry rs p -> kind_rule level rs p.
Proof.
  intros (_ & _ & _ & Hb & H1 & H2 & H3 & H4).
  unfold kind_rule. auto.
Qed.

Lemma advance_kind_rule canvas security (p : Particle) (r : Stream) :
  draws_ok r ->
  (exists rs, (0 <= rs /\ rs < 1) /\ kind_rule (protectionLevel security) rs p) ->
  exists rs, (0 <= rs /\ rs < 1)
             /\ kind_rule (protectionLevel security) rs
                  (fst (advance canvas security p r)).
Proof.
  intros Hr Hp. unfold advance. cbn [x y speed color type].
  destruct (Qgt_bool (x p + speed p) (inject_Z (width canvas))).
  - exists (r 1%nat). split; [apply Hr | ].
    eapply reset_kind_rule. apply resetParticle_rule. exact Hr.
  - exact Hp.
Qed.

Lemma animate_security (l : AnimLoop) (r : Stream) :
  loopSecurity (fst (animate l r)) = loopSecurity l
  /\ loopCanvas (fst (animate l r)) = loopCanvas l.
Proof.
  unfold animate, bind, ret. destruct (forEach _ _ r). split; reflexivity.
Qed.

(** The pool of a fresh loop follows the rule under its measures. *)
Lemma fresh_kind_rule (l : AnimLoop) :
  fresh_loop l ->
  Forall (fun p => exists rs,
              (0 <= rs /\ rs < 1)
              /\ kind_rule (protectionLevel (loopSecurity l)) rs p)
         (particles l).
Proof.
  intros (canvas & sec & r & Hr & _ & ->).
  destruct (animate_security
              (mkAnimLoop canvas sec (fst (initParticles canvas sec particleCount r)))
              (snd (initParticles canvas sec particleCount r))) as (-> & _).
  cbn [loopSecurity].
  pose proof (initParticles_Forall canvas sec
                (fun p => exists rs, (0 <= rs /\ rs < 1)
                                     /\ kind_rule (protectionLevel sec) rs p)
                (fun particle r0 Hr0 =>
                   ex_intro _ (r0 1%nat)
                     (conj (Hr0 1%nat)
                        (reset_kind_rule canvas _ _ _ _
                           (resetParticle_rule canvas sec particle r0 Hr0))))
                particleCount r Hr) as Hinit.
  pose proof (preserves_initParticles canvas sec particleCount r Hr) as Hr1.
  apply Forall_forall. intros p' Hin.
  unfold animate, bind, ret in Hin.
  cbn [loopCanvas loopSecurity particles] in Hin.
  destruct (forEach (advance canvas sec)
              (fst (initParticles canvas sec particleCount r))
              (snd (initParticles canvas sec particleCount r)))
    as [ps r2] eqn:E.
  cbn [fst particles] in Hin.
  replace ps with
    (fst (forEach (advance canvas sec)
            (fst (initParticles canvas sec particleCount r))
            (snd (initParticles canvas sec particleCount r))))
    in Hin by (rewrite E; reflexivity).
  destruct (forEach_In _ _ _ _ (preserves_advance canvas sec) Hr1 Hin)
    as (p & r' & Hr' & Hp & ->).
  apply advance_kind_rule; [exact Hr' | ].
  rewrite Forall_forall in Hinit. apply Hinit, Hp.
Qed.

(** A checkbox ticked while the simulation runs on a usable canvas: one
    new loop after those there were, with a full pool that follows the
    rule under the measures as they are after the change. *)
Lemma checkbox_new_pool (s : App) (key : SecurityKey) (rnd : Stream) :
  reachable s -> draws_ok rnd -> Running s -> usable s = true ->
  exists olds lnew,
    frames (step (SecurityCheckbox key) rnd s) = olds ++ [lnew]
    /\ length olds = length (frames s)
    /\ length (particles lnew) = particleCount
    /\ Forall (fun p => exists rs,
                   (0 <= rs /\ rs < 1)
                   /\ kind_rule
                        (protectionLevel
                           (security (step (SecurityCheckbox key) rnd s)))
                        rs p)
              (particles lnew).
Proof.
  intros Hs Hr Hrun Hu.
  assert (Hs' : reachable (step (SecurityCheckbox key) rnd s))
    by (apply reach_step; [exact Hs | exact I | exact Hr]).
  destruct (step_frames_shape s (SecurityCheckbox key) rnd)
    as [(_ & _ & _ & Hk) | (news & b & Hf & _ & Hfr & Hlen & Hb & _)];
    [discriminate | elim (Hk key); reflexivity | ].
  rewrite Hb, Hrun, Hu in Hlen. cbn [andb] in Hlen.
  destruct news as [ | lnew [ | l2 news]]; try discriminate Hlen.
  specialize (Hfr Hr). inversion Hfr as [ | ? ? Hfresh _]; subst.
  set (base := if animCleanup s then update_last emptied (frames s)
               else frames s) in *.
  assert (Hbase : length base = length (frames s))
    by (subst base; destruct (animCleanup s);
        [apply update_last_length | reflexivity]).
  exists base, lnew. split; [exact Hf | split; [exact Hbase | ]].
  pose proof (fresh_loop_length lnew Hfresh) as Hl.
  split; [exact Hl | ].
  assert (Hsec : loopSecurity lnew
                 = security (step (SecurityCheckbox key) rnd s)).
  { apply (live_loop_security _ (length base) lnew Hs').
    - rewrite Hf, nth_error_app2 by lia. rewrite Nat.sub_diag. reflexivity.
    - intros E. rewrite E in Hl. discriminate Hl. }
  rewrite <- Hsec. apply fresh_kind_rule. exact Hfresh.
Qed.

Lemma midflight_loop : nth_error (frames midflight) 1 = Some midflightLoop.
Proof.
  vm_compute. reflexivity.
Qed.

Lemma reachable_midflight : reachable midflight.
Proof.
  apply reachable_runEvents; [ | apply zeros_ok | apply reach_init].
  apply Forall_app. split; [repeat constructor | ].
  apply Forall_forall. intros e He. apply repeat_spec in He. subst e. exact I.
Qed.

(** C8 as stated fails on its last clause.  The simulation runs with one
    measure enabled; its 100 particles are red attacks of speed 2 at
    x = 22, far from the right edge at 400, so that no reset is due.  A
    second measure is ticked: the particles on display are now yellow,
    of speed 1.2, at the left edge, and the array that held the red
    ones is empty. *)
Lemma C8_counterexample :
  reachable midflight /\ Running midflight
  /\ pool midflight = repeat midflightParticle particleCount
  /\ Qgt_bool (x midflightParticle + speed midflightParticle)
              (inject_Z (width theCanvas)) = false
  /\ pool (step (SecurityCheckbox Kwaf) zeros midflight)
     = repeat (mkParticle 1.2 0 1.2 yellow attack) particleCount
  /\ color (mkParticle 1.2 0 1.2 yellow attack) <> color midflightParticle
  /\ ~ speed (mkParticle 1.2 0 1.2 yellow attack) == speed midflightParticle
  /\ option_map particles
       (nth_error (frames (step (SecurityCheckbox Kwaf) zeros midflight)) 1)
     = Some [].
Proof.
  split; [apply reachable_midflight | ].
  split; [vm_compute; reflexivity | ].
  split; [vm_compute; reflexivity | ].
  split; [vm_compute; reflexivity | ].
  split; [vm_compute; reflexivity | ].
  split; [discriminate | ].
  split; [intros H; vm_compute in H; discriminate H | ].
  vm_compute. reflexivity.
Qed.

(** C8, amended: every loop scheduled in a reachable state is still
    scheduled after any event, and what becomes of its particles depends
    on the event.

    A frame keeps the particles in place and moves each by its speed;
    when and only when that takes a particle past the width of the
    canvas, the particle is reset.  A reset particle has x = 0,
    y = ry * height (within [0, height]) and a base speed 2 + 3 rs in
    [2,5] for two draws ry and rs, and then: a legitimate particle is
    green at the base speed; an attack is red at 0.3 times the base speed
    when the protection level is at least 4, yellow at 0.6 times it when
    the level is 2 or 3, and red at the base speed when the level is
    below 2, the level being that of the measures in force at the reset.
    A particle that is not reset keeps its colour, speed and kind.

    A security checkbox leaves the loop without particles: the pool in
    flight is dropped.  When the simulation is running on a usable canvas
    a new loop is scheduled after the others, with a pool of 100 whose
    colours and speeds follow the same rule under the protection level as
    it is after the change, so that the new settings show at once.

    The button leaves the loop as it was or drops its particles; a
    slider or a tick leaves it as it was. *)
Theorem C8_particle_reset (s : App) (e : Event) (rnd : Stream) (i : nat)
    (l : AnimLoop) :
  reachable s -> draws_ok rnd -> nth_error (frames s) i = Some l ->
  exists l',
    nth_error (frames (step e rnd s)) i = Some l'
    /\ match e with
       | FrameFires =>
           length (particles l') = length (particles l)
           /\ forall j p p',
                nth_error (particles l) j = Some p ->
                nth_error (particles l') j = Some p' ->
                let past_edge :=
                  Qgt_bool (x p + speed p)
                           (inject_Z (width (loopCanvas l))) in
                (past_edge = false
                 /\ p' = mkParticle (x p + speed p) (y p) (speed p)
                           (color p) (type p))
                \/ (past_edge = true
                    /\ exists ry rs,
                         (0 <= ry /\ ry < 1) /\ (0 <= rs /\ rs < 1)
                         /\ reset_rule (loopCanvas l)
                              (protectionLevel (security s)) ry rs p')
       | SecurityCheckbox _ =>
           particles l' = []
           /\ (Running s -> usable s = true ->
               exists olds lnew,
                 frames (step e rnd s) = olds ++ [lnew]
                 /\ length olds = length (frames s)
                 /\ length (particles lnew) = particleCount
                 /\ Forall (fun p => exists rs,
                                (0 <= rs /\ rs < 1)
                                /\ kind_rule
                                     (protectionLevel (security (step e rnd s)))
                                     rs p)
                           (particles lnew))
       | Click => l' = l \/ l' = emptied l
       | _ => l' = l
       end.
Proof.
  intros Hs Hr Hl.
  assert (Hsame : forall e', e' <> FrameFires -> e' <> Click ->
            (forall key, e' <> SecurityCheckbox key) ->
            nth_error (frames (step e' rnd s)) i = Some l).
  { intros e' H1 H2 H3.
    destruct (step_frames_shape s e' rnd H1)
      as [(-> & _) | (_ & _ & _ & _ & _ & _ & _ & [-> | (key & ->)])];
      [exact Hl | elim H2; reflexivity | elim (H3 key); reflexivity]. }
  destruct e as [ | key v | key | v | now | ].
  - assert (Hne : Click <> FrameFires) by discriminate.
    destruct (step_frames_kept s Click rnd i l Hne Hl) as [H | H];
      eexists; (split; [exact H | ]); auto.
  - exists l. split; [ | reflexivity].
    apply Hsame; intros; discriminate.
  - assert (Hne : SecurityCheckbox key <> FrameFires) by discriminate.
    assert (Hex : exists l', nth_error (frames (step (SecurityCheckbox key) rnd s)) i
                             = Some l')
      by (destruct (step_frames_kept s _ rnd i l Hne Hl) as [H | H]; eauto).
    destruct Hex as (l' & Hl'). exists l'. split; [exact Hl' | split].
    + apply (security_change_drops_pool s key rnd i l l' Hs Hl Hl').
    + intros Hrun Hu. apply checkbox_new_pool; assumption.
  - exists l. split; [ | reflexivity].
    apply Hsame; intros; discriminate.
  - exists l. split; [ | reflexivity].
    apply Hsame; intros; discriminate.
  - destruct (step_frame_loop s rnd i l Hr Hl) as (r & Hr' & Hl').
    exists (fst (animate l r)). split; [exact Hl' | ].
    split; [apply animate_length | ].
    intros j p p' Hp Hp'. cbv zeta.
    assert (Hne : particles l <> [])
      by (intros E; rewrite E in Hp; destruct j; discriminate Hp).
    destruct (animate_particle l r j p p' Hr' Hp Hp') as (r' & Hr'' & ->).
    rewrite (live_loop_security s i l Hs Hl Hne).
    unfold advance. cbn [x y speed color type].
    destruct (Qgt_bool (x p + speed p) (inject_Z (width (loopCanvas l)))).
    + right. split; [reflexivity | ].
      exists (r' 0%nat), (r' 1%nat).
      split; [apply Hr'' | split; [apply Hr'' | ]].
      apply resetParticle_rule. exact Hr''.
    + left. split; reflexivity.
Qed.

Lemma C8_particle_reset_witness :
  reachable midflight /\ draws_ok zeros
  /\ nth_error (frames midflight) 1 = Some midflightLoop
  /\ exists l',
       nth_error (frames (step (SecurityCheckbox Kwaf) zeros midflight)) 1
       = Some l'
       /\ particles l' = []
       /\ (Running midflight -> usable midflight = true ->
           exists olds lnew,
             frames (step (SecurityCheckbox Kwaf) zeros midflight)
             = olds ++ [lnew]
             /\ length olds = length (frames midflight)
             /\ length (particles lnew) = particleCount
             /\ Forall (fun p => exists rs,
                            (0 <= rs /\ rs < 1)
                            /\ kind_rule
                                 (protectionLevel
                                    (security
                                       (step (SecurityCheckbox Kwaf) zeros
                                          midflight)))
                                 rs p)
                       (particles lnew)).
Proof.
  split; [apply reachable_midflight | ].
  split; [apply zeros_ok | ].
  split; [apply midflight_loop | ].
  exact (C8_particle_reset midflight (SecurityCheckbox Kwaf) zeros 1
           midflightLoop reachable_midflight zeros_ok midflight_loop).
Defined.
